(** * Reciprocal frequency counter and pulse generator (ESP32-S2)

    A shallow embedding of the sketch
    [ESP32_PrecisionReciprocalCounter_Generator.ino]: the two gated pulse
    counters with their overflow tallies, the frequency estimator of
    [loop], the display precision of [create_display_string], and the
    table-driven pulse generator driven by the rotary encoder
    ([loop], [rotary_onButtonClick]), with the arrays of RMT items they
    fill, and the gate-time selection of the counter-only sketch that
    shares the file.

    C [float] is IEEE-754 binary32 and is modelled with the Standard
    Library's [SpecFloat] at precision 24; [int] and [uint32_t] are
    integers with their wrap-around written out. *)

From Stdlib Require Import ZArith List Bool Lia QArith Qpower Lqa.
From Stdlib Require Import Floats.SpecFloat.
Import ListNotations.
Local Open Scope Z_scope.

(** ** Machine integers *)

Definition to_uint32 (z : Z) : Z := z mod 2 ^ 32.

(** Conversion of a [uint32_t] to [int] (two's complement). *)
Definition to_int32 (z : Z) : Z :=
  let u := z mod 2 ^ 32 in if u <? 2 ^ 31 then u else u - 2 ^ 32.

(** ** Single precision *)

Module F32.

Definition prec : Z := 24.
Definition emax : Z := 128.

Definition float : Type := spec_float.

(** [float(n)] for an integer [n]: round to nearest, ties to even. *)
Definition of_int (n : Z) : float := binary_normalize prec emax n 0 false.

Definition mul : float -> float -> float := SFmul prec emax.
Definition div : float -> float -> float := SFdiv prec emax.
Definition sub : float -> float -> float := SFsub prec emax.
Definition ltb : float -> float -> bool := SFltb.
Definition gtb (x y : float) : bool := SFltb y x.

(** A decimal literal [num/den]: the compiler rounds it to [double],
    the initialisation of a [float] rounds that once more. *)
Definition of_decimal (num den : positive) : float :=
  match SFdiv 53 1024 (S754_finite false num 0) (S754_finite false den 0) with
  | S754_finite s m e => binary_round prec emax s m e
  | x => x
  end.

(** [int(x)]: truncation toward zero; the conversion of a NaN, of an
    infinity or of a number beyond [int] is not defined by the
    language. *)
Definition to_int (x : float) : option Z :=
  match x with
  | S754_zero _ => Some 0
  | S754_finite s m e =>
      let a := match e with
               | Zneg p => Z.shiftr (Zpos m) (Zpos p)
               | _ => Z.shiftl (Zpos m) e
               end in
      let z := if s then - a else a in
      if (- 2 ^ 31 <=? z) && (z <? 2 ^ 31) then Some z else None
  | S754_infinity _ | S754_nan => None
  end.

(** A [float] used as a condition: false for zero only. *)
Definition to_bool (x : float) : bool :=
  match x with
  | S754_zero _ => false
  | _ => true
  end.

(** The rational value of a finite number. *)
Definition to_Q (x : float) : option Q :=
  match x with
  | S754_zero _ => Some 0%Q
  | S754_finite s m e =>
      let a := match e with
               | Zneg p => (Zpos m # Pos.shiftl 1 (Npos p))%Q
               | _ => inject_Z (Z.shiftl (Zpos m) e)
               end in
      Some (if s then Qopp a else a)
  | S754_infinity _ | S754_nan => None
  end.

End F32.

(** ** The calibration table

    [float params[348][4]]: clock multiplier, on/off duration in ticks,
    nominal frequency, calibrated frequency. *)

Record row_t : Type := row
  { clock_multiplier : Z;
    on_off_duration : Z;
    nominal_freq : Z;
    calibrated_freq : Q }.

Arguments row _%_Z _%_Z _%_Z _%_Q.

Definition params : list row_t := [
  row 247 32393 5 (4999982945888294 # 1000000000000000);
  row 204 32684 6 (6000000382276363 # 1000000000000000);
  row 201 28433 7 (6999997821332161 # 1000000000000000);
  row 153 32684 8 (8000000509701815 # 1000000000000000);
  row 136 32684 9 (9000000573414543 # 1000000000000000);
  row 203 19707 10 (10000002136932016 # 1000000000000000);
  row 120 30307 11 (10999994101704063 # 1000000000000000);
  row 136 24513 12 (12000000764552723 # 1000000000000000);
  row 141 21825 13 (12999997903647294 # 1000000000000000);
  row 145 19707 14 (14000002991704823 # 1000000000000000);
  row 97 27495 15 (14999997581131492 # 1000000000000000);
  row 102 24513 16 (1600000101940363 # 100000000000000);
  row 96 24513 17 (17000001083116356 # 1000000000000000);
  row 68 32684 18 (18000001146829085 # 1000000000000000);
  row 129 16322 19 (1899999836091365 # 100000000000000);
  row 103 19420 20 (20000009273215184 # 1000000000000000);
  row 145 13138 21 (21000004487557234 # 1000000000000000);
  row 60 30307 22 (21999988203408126 # 1000000000000000);
  row 71 24498 23 (22999991116746184 # 1000000000000000);
  row 68 24513 24 (24000001529105447 # 1000000000000000);
  row 117 13677 25 (24999995968552486 # 1000000000000000);
  row 173 8894 26 (2600000425619233 # 100000000000000);
  row 47 31525 27 (26999995646036684 # 1000000000000000);
  row 81 17639 28 (27999976587263077 # 1000000000000000);
  row 70 19707 29 (2900000619710285 # 100000000000000);
  row 203 6569 30 (30000006410796047 # 1000000000000000);
  row 54 23898 31 (3099997407875555 # 100000000000000);
  row 51 24513 32 (3200000203880726 # 100000000000000);
  row 40 30307 33 (3299998230511219 # 100000000000000);
  row 48 24513 34 (3400000216623271 # 100000000000000);
  row 58 19707 35 (3500000747926205 # 100000000000000);
  row 34 32684 36 (3600000229365817 # 100000000000000);
  row 143 7561 37 (3699996998661831 # 100000000000000);
  row 129 8161 38 (379999967218273 # 10000000000000);
  row 45 22795 39 (3899999371094188 # 100000000000000);
  row 103 9710 40 (4000001854643037 # 100000000000000);
  row 49 19913 41 (41000001587355406 # 1000000000000000);
  row 145 6569 42 (4200000897511447 # 100000000000000);
  row 38 24483 43 (4299999629048878 # 100000000000000);
  row 30 30307 44 (4399997640681625 # 100000000000000);
  row 39 22795 45 (4499999274339447 # 100000000000000);
  row 71 12249 46 (4599998223349237 # 100000000000000);
  row 27 31525 47 (4699999242087868 # 100000000000000);
  row 34 24513 48 (4800000305821089 # 100000000000000);
  row 41 19913 49 (49000001897083294 # 1000000000000000);
  row 103 7768 50 (5000002318303797 # 100000000000000);
  row 24 32684 51 (5100000324934907 # 100000000000000);
  row 173 4447 52 (5200000851238466 # 100000000000000);
  row 32 23588 53 (5299996098233398 # 100000000000000);
  row 31 23898 54 (53999954846864505 # 1000000000000000);
  row 24 30307 55 (5499997050852031 # 100000000000000);
  row 42 17009 56 (5600007075923586 # 100000000000000);
  row 43 16322 57 (56999995082740945 # 1000000000000000);
  row 35 19707 58 (580000123942057 # 10000000000000);
  row 35 19373 59 (58999960989656294 # 1000000000000000);
  row 22 30307 60 (5999996782747671 # 100000000000000);
  row 133 4931 61 (61000023708899214 # 1000000000000000);
  row 27 23898 62 (619999481575111 # 10000000000000);
  row 31 20484 63 (62999947321341914 # 1000000000000000);
  row 53 11794 64 (63999952884327826 # 1000000000000000);
  row 27 22795 65 (6499998951823646 # 100000000000000);
  row 20 30307 66 (6599996461022438 # 100000000000000);
  row 21 28433 67 (6699997914703638 # 100000000000000);
  row 24 24513 68 (6800000433246542 # 100000000000000);
  row 71 8166 69 (6899997335023855 # 100000000000000);
  row 29 19707 70 (700000149585241 # 10000000000000);
  row 18 31303 71 (7099997257778169 # 100000000000000);
  row 17 32684 72 (7200000458731634 # 100000000000000);
  row 19 28843 73 (729999590320034 # 10000000000000);
  row 18 30034 74 (7399987153234002 # 100000000000000);
  row 47 11349 75 (7499998790565746 # 100000000000000);
  row 167 3152 76 (7600006563429245 # 100000000000000);
  row 49 10603 77 (770001916069988 # 10000000000000);
  row 59 8693 78 (7800006346201289 # 100000000000000);
  row 187 2708 79 (7899987075103557 # 100000000000000);
  row 103 4855 80 (8000003709286074 # 100000000000000);
  row 217 2276 81 (8099993227029677 # 100000000000000);
  row 29 16823 82 (8200025529261336 # 100000000000000);
  row 163 2957 83 (829999285232326 # 10000000000000);
  row 27 17639 84 (8399992976178923 # 100000000000000);
  row 25 18826 85 (8499993317505876 # 100000000000000);
  row 19 24483 86 (8599999258097756 # 100000000000000);
  row 35 13138 87 (8700001859130853 # 100000000000000);
  row 15 30307 88 (879999528136325 # 10000000000000);
  row 17 26441 89 (889999678503781 # 10000000000000);
  row 109 4078 90 (9000008672366245 # 100000000000000);
  row 16 27476 91 (9100036975187756 # 100000000000000);
  row 20 21742 92 (9199985868098935 # 100000000000000);
  row 18 23898 93 (9299992223626666 # 100000000000000);
  row 211 2017 94 (9400009527744363 # 100000000000000);
  row 17 24771 95 (9500012716207853 # 100000000000000);
  row 17 24513 96 (9600000611642179 # 100000000000000);
  row 13 31725 97 (9699998435798365 # 100000000000000);
  row 24 17009 98 (9800012382866277 # 100000000000000);
  row 13 31084 99 (9900027357344715 # 100000000000000);
  row 103 3884 100 (10000004636607594 # 100000000000000);
  row 12 30307 110 (10999994101704063 # 100000000000000);
  row 11 30307 120 (11999993565495342 # 100000000000000);
  row 107 2876 130 (13000019025919113 # 100000000000000);
  row 23 12424 140 (13999978494933163 # 100000000000000);
  row 10 26670 150 (1500008194557233 # 10000000000000);
  row 23 10871 160 (15999975422780756 # 100000000000000);
  row 25 9413 170 (16999986635011751 # 100000000000000);
  row 109 2039 180 (1800001734473249 # 10000000000000);
  row 7 30079 190 (19000070551757233 # 100000000000000);
  row 103 1942 200 (20000009273215187 # 100000000000000);
  row 29 6569 210 (2100000448755723 # 10000000000000);
  row 6 30307 220 (21999988203408125 # 100000000000000);
  row 7 24848 230 (22999964670247334 # 100000000000000);
  row 8 20836 240 (24000059121737257 # 100000000000000);
  row 17 9413 250 (24999980345605516 # 100000000000000);
  row 107 1438 260 (26000038051838226 # 100000000000000);
  row 9 16463 270 (27000086759427813 # 100000000000000);
  row 23 6212 280 (27999956989866325 # 100000000000000);
  row 7 19707 290 (29000006197102846 # 100000000000000);
  row 5 26670 300 (3000016389114466 # 10000000000000);
  row 5 25810 310 (3099978190534011 # 10000000000000);
  row 6 20836 320 (3200007882898301 # 10000000000000);
  row 4 30307 330 (3299998230511219 # 10000000000000);
  row 7 16809 340 (3399982878971419 # 10000000000000);
  row 11 10391 350 (3499988499561806 # 10000000000000);
  row 6 18521 360 (35999872711013984 # 100000000000000);
  row 7 15446 370 (37000072648342984 # 100000000000000);
  row 6 17546 380 (38000321582166305 # 100000000000000);
  row 67 1531 390 (39000183812006014 # 100000000000000);
  row 103 971 400 (40000018546430374 # 100000000000000);
  row 7 13939 410 (41000295726114194 # 100000000000000);
  row 13 7327 420 (4199978850494105 # 10000000000000);
  row 5 18607 430 (4300018116713216 # 10000000000000);
  row 3 30307 440 (4399997640681625 # 10000000000000);
  row 4 22225 450 (45000245836716994 # 100000000000000);
  row 4 21742 460 (4599992934049467 # 10000000000000);
  row 47 1811 470 (4700026851139186 # 10000000000000);
  row 4 20836 480 (48000118243474515 # 100000000000000);
  row 19 4297 490 (4900018194926865 # 10000000000000);
  row 3 26670 500 (50000273151907766 # 100000000000000);
  row 7 11206 510 (50999743184571287 # 100000000000000);
  row 107 719 520 (5200007610367645 # 10000000000000);
  row 11 6862 530 (5299968012087836 # 10000000000000);
  row 4 18521 540 (5399980906652098 # 10000000000000);
  row 7 10391 550 (5499981927882839 # 10000000000000);
  row 23 3106 560 (5599991397973265 # 10000000000000);
  row 5 14037 570 (5699967022703057 # 10000000000000);
  row 5 13795 580 (5799959195192665 # 10000000000000);
  row 5 13561 590 (5900039606052858 # 10000000000000);
  row 3 22225 600 (6000032778228932 # 10000000000000);
  row 11 5962 610 (6100030274898814 # 10000000000000);
  row 5 12905 620 (6199956381068022 # 10000000000000);
  row 2 31750 630 (6300034417140379 # 10000000000000);
  row 3 20836 640 (6400015765796602 # 10000000000000);
  row 2 30773 650 (6500051757846392 # 10000000000000);
  row 2 30307 660 (6599996461022438 # 10000000000000);
  row 3 19903 670 (6700031577960006 # 10000000000000);
  row 2 29416 680 (6799907966555854 # 10000000000000);
  row 37 1567 690 (6899949731599614 # 10000000000000);
  row 2 28575 700 (7000038241267087 # 10000000000000);
  row 5 11269 710 (7100047661521237 # 10000000000000);
  row 3 18521 720 (7199974542202797 # 10000000000000);
  row 2 27401 730 (7299955941177586 # 10000000000000);
  row 7 7723 740 (7400014529668597 # 10000000000000);
  row 3 17780 750 (7500040972786164 # 10000000000000);
  row 3 17546 760 (7600064316433261 # 10000000000000);
  row 5 10391 770 (7699974699035974 # 10000000000000);
  row 7 7327 780 (7799960722346196 # 10000000000000);
  row 5 10128 790 (7899924673941827 # 10000000000000);
  row 79 633 800 (7999923720447418 # 10000000000000);
  row 3 16463 810 (8100026027828343 # 10000000000000);
  row 3 16262 820 (8200143186332432 # 10000000000000);
  row 157 307 830 (830001007258271 # 1000000000000);
  row 3 15875 840 (8400045889520504 # 10000000000000);
  row 5 9413 850 (8499993317505877 # 10000000000000);
  row 2 23259 860 (8599943795700891 # 10000000000000);
  row 7 6569 870 (8700001859130854 # 10000000000000);
  row 2 22730 880 (8800092069696744 # 10000000000000);
  row 2 22475 890 (8899937385726676 # 10000000000000);
  row 2 22225 900 (9000049167343399 # 10000000000000);
  row 2 21981 910 (9099954176070562 # 10000000000000);
  row 2 21742 920 (9199985868098934 # 10000000000000);
  row 2 21508 930 (930007870300386 # 1000000000000);
  row 11 3869 940 (9399943266721823 # 10000000000000);
  row 9 4679 950 (9499945037838429 # 10000000000000);
  row 2 20836 960 (9600023648694903 # 10000000000000);
  row 2 20621 970 (9700116034343971 # 10000000000000);
  row 2 20411 980 (9799916356092647 # 10000000000000);
  row 17 2377 990 (990007635646549 # 1000000000000);
  row 3 13335 1000 (10000054630381553 # 10000000000000);
  row 2 18184 1100 (11000115087120932 # 10000000000000);
  row 2 16669 1200 (11999885580671128 # 10000000000000);
  row 1 30773 1300 (13000103515692783 # 10000000000000);
  row 1 28575 1400 (14000076482534173 # 10000000000000);
  row 3 8890 1500 (15000081945572329 # 10000000000000);
  row 1 25003 1600 (16000167399448626 # 10000000000000);
  row 1 23532 1700 (17000347844994646 # 10000000000000);
  row 1 22225 1800 (18000098334686797 # 10000000000000);
  row 1 21055 1900 (19000341272306532 # 10000000000000);
  row 83 241 2000 (1999960933302075 # 1000000000000);
  row 1 19050 2100 (2100011472380126 # 1000000000000);
  row 1 18184 2200 (22000230174241865 # 10000000000000);
  row 1 17394 2300 (22999435753042085 # 10000000000000);
  row 1 16669 2400 (23999771161342255 # 10000000000000);
  row 1 16002 2500 (25000136575953884 # 10000000000000);
  row 1 15387 2600 (25999362155612794 # 10000000000000);
  row 1 14817 2700 (26999540088304925 # 10000000000000);
  row 1 14288 2800 (27999173116490347 # 10000000000000);
  row 1 13795 2900 (28999795975963325 # 10000000000000);
  row 3 4445 3000 (30000163891144657 # 10000000000000);
  row 1 12905 3100 (30999781905340105 # 10000000000000);
  row 1 12502 3200 (3199905499027468 # 1000000000000);
  row 27 449 3300 (3299943788570602 # 1000000000000);
  row 1 11766 3400 (34000695689989293 # 10000000000000);
  row 3 3810 3500 (3500019120633543 # 1000000000000);
  row 1 11113 3600 (35998576935878164 # 10000000000000);
  row 3 3604 3700 (3700075707440011 # 1000000000000);
  row 1 10528 3800 (37998877800951186 # 10000000000000);
  row 1 10258 3900 (38999043233419193 # 10000000000000);
  row 1 10001 4000 (40001218426998703 # 10000000000000);
  row 1 9757 4100 (4100155636859834 # 1000000000000);
  row 1 9525 4200 (4200022944760252 # 1000000000000);
  row 1 9304 4300 (4299787032334631 # 1000000000000);
  row 1 9092 4400 (4400046034848373 # 1000000000000);
  row 1 8890 4500 (4500024583671699 # 1000000000000);
  row 1 8697 4600 (4599887150608417 # 1000000000000);
  row 1 8512 4700 (46998612016965935 # 10000000000000);
  row 1 8334 4800 (48002422064844495 # 10000000000000);
  row 1 8164 4900 (4900198254390177 # 1000000000000);
  row 1 8001 5000 (5000027315190777 # 1000000000000);
  row 37 212 5100 (5100104353498394 # 1000000000000);
  row 7 1099 5200 (5200210392414065 # 1000000000000);
  row 1 7548 5300 (5300108445792449 # 1000000000000);
  row 1 7408 5400 (5400272482295006 # 1000000000000);
  row 1 7274 5500 (5499755093324361 # 1000000000000);
  row 1 7144 5600 (5599834623298069 # 1000000000000);
  row 11 638 5700 (5700373118957167 # 1000000000000);
  row 3 2299 5800 (5800379664903784 # 1000000000000);
  row 1 6781 5900 (5899604564052707 # 1000000000000);
  row 1 6668 6000 (599958286575306 # 100000000000);
  row 1 6558 6100 (610021630814904 # 100000000000);
  row 1 6452 6200 (62004368488594855 # 10000000000000);
  row 25 254 6300 (6300034417140378 # 1000000000000);
  row 1 6251 6400 (6399810998054936 # 1000000000000);
  row 1 6155 6500 (6499629333686662 # 1000000000000);
  row 1 6061 6600 (6600432032476721 # 1000000000000);
  row 1 5971 6700 (6699919368420936 # 1000000000000);
  row 1 5883 6800 (6800139137997859 # 1000000000000);
  row 1 5798 6900 (6899830725912626 # 1000000000000);
  row 3 1905 7000 (7000038241267086 # 1000000000000);
  row 1 5635 7100 (7099417666165289 # 1000000000000);
  row 1 5556 7200 (7200363309726674 # 1000000000000);
  row 1 5480 7300 (7300222362927264 # 1000000000000);
  row 3 1802 7400 (7400151414880022 # 1000000000000);
  row 1 5334 7500 (7500040972786164 # 1000000000000);
  row 1 5264 7600 (7599775560190237 # 1000000000000);
  row 1 5195 7700 (77007157938097025 # 10000000000000);
  row 1 5129 7800 (7799808646683839 # 1000000000000);
  row 1 5064 7900 (7899924673941825 # 1000000000000);
  row 1 5001 8000 (7999443821004081 # 1000000000000);
  row 1 4939 8100 (8099862026491476 # 1000000000000);
  row 1 4879 8200 (819947090568588 # 100000000000);
  row 1 4820 8300 (829983787320361 # 100000000000);
  row 1 4763 8400 (8399164087516567 # 1000000000000);
  row 1 4706 8500 (8500896419218318 # 1000000000000);
  row 1 4652 8600 (8599574064669261 # 1000000000000);
  row 11 418 8700 (8700569497355677 # 1000000000000);
  row 1 4546 8800 (8800092069696746 # 1000000000000);
  row 5 899 8900 (8899937385726676 # 1000000000000);
  row 1 4445 9000 (9000049167343397 # 1000000000000);
  row 1 4396 9100 (9100368186724614 # 1000000000000);
  row 1 4348 9200 (9200832232944205 # 1000000000000);
  row 239 18 9300 (9299213981599583 # 1000000000000);
  row 1 4256 9400 (9399722403393187 # 1000000000000);
  row 1 4211 9500 (9500170636153267 # 1000000000000);
  row 1 4167 9600 (9600484412968899 # 1000000000000);
  row 1 4124 9700 (9700586457042047 # 1000000000000);
  row 1 4082 9800 (9800396508780354 # 1000000000000);
  row 1 4041 9900 (9899831365711805 # 1000000000000);
  row 1 4001 10000 (9998804935976357 # 1000000000000);
  row 1 3637 11000 (10999510186648722 # 1000000000000);
  row 1 3334 12000 (1199916573150612 # 100000000000);
  row 17 181 13000 (13001370994098603 # 1000000000000);
  row 1 2858 14000 (1399762720393331 # 100000000000);
  row 1 2667 15000 (15000081945572329 # 1000000000000);
  row 1 2500 16000 (16002087419536561 # 1000000000000);
  row 1 2353 17000 (17001792838436635 # 1000000000000);
  row 1 2223 18000 (17996049729573282 # 1000000000000);
  row 27 78 19000 (18995830270105133 # 1000000000000);
  row 1 2000 20000 (200026092744207 # 10000000000);
  row 3 635 21000 (2100011472380126 # 100000000000);
  row 3 606 22000 (22005070708933665 # 1000000000000);
  row 1 1739 23000 (2300472602003531 # 100000000000);
  row 1 1667 24000 (2399833146301224 # 100000000000);
  row 1 1600 25000 (25003261593025876 # 1000000000000);
  row 27 57 26000 (25994294053828078 # 1000000000000);
  row 1 1482 27000 (2699407459435992 # 100000000000);
  row 1 1429 28000 (2799525440786662 # 100000000000);
  row 1 1379 29000 (2901031076783278 # 100000000000);
  row 1 1334 30000 (299889194519051 # 10000000000);
  row 1 1290 31000 (3101179732468326 # 100000000000);
  row 1 1250 32000 (32004174839073123 # 1000000000000);
  row 1 1212 33000 (330076060634005 # 10000000000);
  row 107 11 34000 (3398914065322125 # 100000000000);
  row 1 1143 35000 (3500019120633544 # 100000000000);
  row 11 101 36000 (3600829752370963 # 100000000000);
  row 1 1081 37000 (3700760272788289 # 100000000000);
  row 27 39 38000 (37991660540210265 # 1000000000000);
  row 27 38 39000 (38991441080742115 # 1000000000000);
  row 1 1000 40000 (400052185488414 # 10000000000);
  row 1 976 41000 (4098895343118996 # 100000000000);
  row 3 310 43000 (4301636403101226 # 100000000000);
  row 3 303 44000 (4401014141786733 # 100000000000);
  row 1 889 45000 (4500024583671699 # 100000000000);
  row 1 870 46000 (4598300982625449 # 100000000000);
  row 1 851 47000 (4700965751920259 # 100000000000);
  row 1 800 50000 (5000652318605175 # 100000000000);
  row 1 769 52000 (5202239083074305 # 100000000000);
  row 1 755 53000 (5298704443555153 # 100000000000);
  row 1 741 54000 (5398814918871984 # 100000000000);
  row 1 702 57000 (5698749081031539 # 100000000000);
  row 5 138 58000 (5797857760701654 # 100000000000);
  row 1 678 59000 (59004747122184956 # 1000000000000);
  row 1 667 60000 (599778389038102 # 10000000000);
  row 1 656 61000 (6098356486103873 # 100000000000);
  row 1 645 62000 (6202359464936652 # 100000000000);
  row 1 635 63000 (6300034417140378 # 100000000000);
  row 1 625 64000 (64008349678146245 # 1000000000000);
  row 1 606 66000 (66015212126801 # 1000000000);
  row 1 597 67000 (670104163297176 # 10000000000);
  row 1 580 69000 (6897451473938173 # 100000000000);
  row 1 548 73000 (7300222362927263 # 100000000000);
  row 27 19 78000 (7798288216148423 # 100000000000);
  row 1 500 80000 (800104370976828 # 10000000000);
  row 1 494 81000 (8098222378307977 # 100000000000);
  row 1 488 82000 (8197790686237992 # 100000000000);
  row 1 482 83000 (8299837873203612 # 100000000000);
  row 3 155 86000 (8603272806202451 # 100000000000);
  row 1 460 87000 (8696786641052479 # 100000000000);
  row 1 435 92000 (9196601965250899 # 100000000000);
  row 43 10 93000 (9303539197404977 # 100000000000);
  row 1 421 95000 (9502427208750928 # 100000000000);
  row 1 404 99000 (9902281819020149 # 100000000000);
  row 1 400 100000 (1000130463721035 # 10000000000);
  row 1 200 200000 (200026092744207 # 1000000000);
  row 1 100 400000 (400052185488414 # 1000000000);
  row 1 80 500000 (5000652318605176 # 10000000000);
  row 1 50 800000 (800104370976828 # 1000000000);
  row 1 40 1000000 (10001304637210352 # 10000000000);
  row 1 20 2000000 (20002609274420703 # 10000000000);
  row 1 10 4000000 (40005218548841407 # 10000000000);
  row 1 8 5000000 (5000652318605175 # 1000000000)
].

(** [params[i]]; an index outside the array is an out-of-bounds access. *)
Definition params_at (i : Z) : option row_t :=
  if i <? 0 then None else nth_error params (Z.to_nat i).

(** [params[i][1]], read into [float t_dur]; the durations of the table
    are integers below [2^24], which a [float] holds exactly. *)
Definition t_dur_of (r : row_t) : F32.float := F32.of_int (on_off_duration r).

(** ** Rotary encoder *)

Module RotaryEncoder.

(** Modelled from the spec: the rotary-encoder driver
    (AiEsp32RotaryEncoder) is a library outside the sources.  The
    spec gives it a position bounded to a non-cyclic index range:
    moves beyond a bound are clamped, not wrapped.  [setBoundaries]
    takes the range and the [circleValues] flag, whose meaning the
    sketch documents as "when max go to min and vice versa". *)
Record t : Type := mk
  { position : Z;
    lastRead : Z;
    minValue : Z;
    maxValue : Z;
    circleValues : bool }.

(** Modelled from the spec: a value beyond a bound is brought back to
    that bound, or to the other one when the values circle. *)
Definition limit (e : t) (x : Z) : Z :=
  if x >? maxValue e then (if circleValues e then minValue e else maxValue e)
  else if x <? minValue e then (if circleValues e then maxValue e else minValue e)
  else x.

(** Modelled from the spec: the encoder before [setBoundaries]. *)
Definition begin : t := mk 0 0 (-(2 ^ 15)) (2 ^ 15) false.

(** Modelled from the spec: [setBoundaries(minValue, maxValue, circleValues)]. *)
Definition setBoundaries (lo hi : Z) (circle : bool) (e : t) : t :=
  mk (position e) (lastRead e) lo hi circle.

(** Modelled from the spec: [setEncoderValue] moves to a value inside
    the bounds. *)
Definition setEncoderValue (v : Z) (e : t) : t :=
  mk (limit e v) (limit e v) (minValue e) (maxValue e) (circleValues e).

(** Modelled from the spec: the interrupt routine [readEncoder_ISR],
    when the knob moved by [delta] detents (negative for
    counter-clockwise). *)
Definition readEncoder_ISR (delta : Z) (e : t) : t :=
  mk (limit e (position e + delta)) (lastRead e)
     (minValue e) (maxValue e) (circleValues e).

(** Modelled from the spec: [readEncoder] returns the position. *)
Definition readEncoder (e : t) : Z := position e.

(** Modelled from the spec: [encoderChanged] tells whether the position
    moved since it was last asked. *)
Definition encoderChanged (e : t) : bool * t :=
  (negb (position e =? lastRead e),
   mk (position e) (position e) (minValue e) (maxValue e) (circleValues e)).

End RotaryEncoder.

(** ** Pulse generator *)

(** What the waveform driver is armed with: the tick multiplier given to
    [rmtSetTick], the two durations of [freq_gen_bit_data], and the duty
    written on the second display line.  Every item of
    [freq_gen_bit_data] gets the same two durations (the sketch fills
    two items in [loop], two or sixty in [rotary_onButtonClick]
    according to the variant); the embedding keeps them once.  The
    duration fields of an RMT item are 15 bits wide. *)
Record waveform_t : Type := mkWaveform
  { tick_multiplier : Z;
    duration0 : Z;
    duration1 : Z;
    shown_duty : Z }.

(** State of the generator: the encoder, and the two values kept in RTC
    memory across resets. *)
Record generator_t : Type := mkGenerator
  { rotaryEncoder : RotaryEncoder.t;
    encoderValue : Z;
    set_duty : Z;
    waveform : option waveform_t }.

(** [t_on = (t_dur/100)*2*duty; t_off = 2*t_dur - int(t_on)], the same
    two lines in [loop] and in [rotary_onButtonClick]. *)
Definition t_on_of (t_dur : F32.float) (duty : Z) : F32.float :=
  F32.mul (F32.mul (F32.div t_dur (F32.of_int 100)) (F32.of_int 2)) (F32.of_int duty).

Definition t_off_of (t_dur : F32.float) (int_t_on : Z) : F32.float :=
  F32.sub (F32.mul (F32.of_int 2) t_dur) (F32.of_int int_t_on).

(** The durations [int(t_on)], [int(t_off)] stored in the RMT items. *)
Definition rmt_durations (t_dur : F32.float) (duty : Z) : option (Z * Z) :=
  match F32.to_int (t_on_of t_dur duty) with
  | Some on =>
      match F32.to_int (t_off_of t_dur on) with
      | Some off => Some (on, off)
      | None => None
      end
  | None => None
  end.

Definition arm (r : row_t) (duty : Z) : option waveform_t :=
  match rmt_durations (t_dur_of r) duty with
  | Some (on, off) => Some (mkWaveform (clock_multiplier r) on off duty)
  | None => None
  end.

(** The test of [rotary_onButtonClick]: [t_dur < 18000 && t_dur > 40]. *)
Definition button_can_change (t_dur : F32.float) : bool :=
  F32.ltb t_dur (F32.of_int 18000) && F32.gtb t_dur (F32.of_int 40).

(** The test of [loop]: [t_dur > 18000 || t_dur < 40]. *)
Definition loop_cannot_apply (t_dur : F32.float) : bool :=
  F32.gtb t_dur (F32.of_int 18000) || F32.ltb t_dur (F32.of_int 40).

Definition rotary_onButtonClick (g : generator_t) : option generator_t :=
  let encoderValue := RotaryEncoder.readEncoder (rotaryEncoder g) in
  match params_at encoderValue with
  | None => None
  | Some r =>
      let t_dur := t_dur_of r in
      let '(set_duty', duty) :=
        if button_can_change t_dur then
          let s := if set_duty g <? 90 then set_duty g + 10 else 10 in (s, s)
        else (set_duty g, 50) in
      match arm r duty with
      | Some w => Some (mkGenerator (rotaryEncoder g) encoderValue set_duty' (Some w))
      | None => None
      end
  end.

(** The branch of [loop] taken when the encoder value changed. *)
Definition loop_encoder (g : generator_t) : option generator_t :=
  let '(changed, enc) := RotaryEncoder.encoderChanged (rotaryEncoder g) in
  if changed then
    let encoderValue := RotaryEncoder.readEncoder enc in
    match params_at encoderValue with
    | None => None
    | Some r =>
        let t_dur := t_dur_of r in
        let duty := if loop_cannot_apply t_dur then 50 else set_duty g in
        match arm r duty with
        | Some w => Some (mkGenerator enc encoderValue (set_duty g) (Some w))
        | None => None
        end
    end
  else Some (mkGenerator enc (encoderValue g) (set_duty g) (waveform g)).

(** The generator half of one iteration of [loop]; [clicked] is the
    answer of [isEncoderButtonClicked]. *)
Definition loop_generator (clicked : bool) (g : generator_t) : option generator_t :=
  match loop_encoder g with
  | Some g' => if clicked then rotary_onButtonClick g' else Some g'
  | None => None
  end.

(** The generator half of [setup], from the values found in RTC memory.
    The last statement prints [params[encoderValue][1]]. *)
Definition setup_generator (rtc_encoderValue rtc_set_duty : Z) : option generator_t :=
  let enc := RotaryEncoder.setEncoderValue rtc_encoderValue
               (RotaryEncoder.setBoundaries 0 347 false RotaryEncoder.begin) in
  let encoderValue := RotaryEncoder.readEncoder enc in
  match params_at encoderValue with
  | Some _ => Some (mkGenerator enc encoderValue rtc_set_duty None)
  | None => None
  end.

(** What happens to the generator: the knob is turned (interrupt), or
    [loop] runs once. *)
Inductive input : Type :=
| Turn (delta : Z)
| Loop (clicked : bool).

Definition step (i : input) (g : generator_t) : option generator_t :=
  match i with
  | Turn delta =>
      Some (mkGenerator (RotaryEncoder.readEncoder_ISR delta (rotaryEncoder g))
                        (encoderValue g) (set_duty g) (waveform g))
  | Loop clicked => loop_generator clicked g
  end.

Fixpoint run (ins : list input) (g : generator_t) : option generator_t :=
  match ins with
  | [] => Some g
  | i :: rest =>
      match step i g with
      | Some g' => run rest g'
      | None => None
      end
  end.

(** First boot: [encoderValue = 185], [set_duty = 50]. *)
Definition boot_generator : option generator_t := setup_generator 185 50.

Definition duty_steps : list Z := [10; 20; 30; 40; 50; 60; 70; 80; 90].

(** ** Pulse counters *)

Definition PCNT_H_LIM_VAL : Z := 20000.

(** One PCNT unit: the 16-bit count, its bit of [PCNT.int_st] and the
    latched status [cnt_thr_h_lim_lat_un]. *)
Record pcnt_unit_t : Type := mkUnit
  { cnt : Z;
    int_st : bool;
    h_lim_lat : bool }.

(** Modelled from the spec: the pulse-counter peripheral is hardware.
    As [init_counter] configures it ([pos_mode = PCNT_COUNT_INC],
    [counter_h_lim = PCNT_H_LIM_VAL], event [PCNT_EVT_H_LIM] enabled), a
    pulse inside the gate window adds one to the count; a count that
    reaches the limit returns to zero, latches the limit status and
    raises the unit's interrupt. *)
Definition pcnt_pulse (u : pcnt_unit_t) : pcnt_unit_t :=
  if cnt u + 1 =? PCNT_H_LIM_VAL then mkUnit 0 true true
  else mkUnit (cnt u + 1) (int_st u) (h_lim_lat u).

(** Modelled from the spec: [pcnt_counter_clear] puts the count of a
    unit back to zero. *)
Definition pcnt_counter_clear (u : pcnt_unit_t) : pcnt_unit_t :=
  mkUnit 0 (int_st u) (h_lim_lat u).

Module Reading.
(** [reading_t], four [uint32_t]. *)
Record t : Type := mk
  { count0 : Z;
    noverflow0 : Z;
    count1 : Z;
    noverflow1 : Z }.
End Reading.

(** The counters, the globals [noverflow0], [noverflow1], [reading] and
    [ready]. *)
Record counters_t : Type := mkCounters
  { unit0 : pcnt_unit_t;
    unit1 : pcnt_unit_t;
    noverflow0 : Z;
    noverflow1 : Z;
    reading : Reading.t;
    ready : bool }.

(** The body of the [for] loop of [pcnt_intr_handler] for [i = 0] and
    for [i = 1]; the other units are never configured and raise no
    interrupt. *)
Definition handle_unit0 (c : counters_t) : counters_t :=
  if int_st (unit0 c) then
    let u := mkUnit (cnt (unit0 c)) false (h_lim_lat (unit0 c)) in
    mkCounters u (unit1 c)
      (if h_lim_lat (unit0 c) then to_uint32 (noverflow0 c + 1) else noverflow0 c)
      (noverflow1 c) (reading c) (ready c)
  else c.

Definition handle_unit1 (c : counters_t) : counters_t :=
  if int_st (unit1 c) then
    let u := mkUnit (cnt (unit1 c)) false (h_lim_lat (unit1 c)) in
    mkCounters (unit0 c) u (noverflow0 c)
      (if h_lim_lat (unit1 c) then to_uint32 (noverflow1 c + 1) else noverflow1 c)
      (reading c) (ready c)
  else c.

Definition pcnt_intr_handler (c : counters_t) : counters_t :=
  handle_unit1 (handle_unit0 c).

(** Counter 0 counts the reference clock, counter 1 the input signal. *)
Inductive pulse : Type := Ref | Sig.

Definition unit_of (p : pulse) (c : counters_t) : pcnt_unit_t :=
  match p with Ref => unit0 c | Sig => unit1 c end.

(** Does this pulse take its counter to the limit? *)
Definition reaches_limit (p : pulse) (c : counters_t) : bool :=
  cnt (unit_of p c) + 1 =? PCNT_H_LIM_VAL.

(** A pulse inside the gate window; a raised interrupt is served at
    once (run to completion). *)
Definition count_pulse (p : pulse) (c : counters_t) : counters_t :=
  let c' := match p with
            | Ref => mkCounters (pcnt_pulse (unit0 c)) (unit1 c)
                       (noverflow0 c) (noverflow1 c) (reading c) (ready c)
            | Sig => mkCounters (unit0 c) (pcnt_pulse (unit1 c))
                       (noverflow0 c) (noverflow1 c) (reading c) (ready c)
            end in
  if int_st (unit0 c') || int_st (unit1 c') then pcnt_intr_handler c' else c'.

Definition count_pulses (ps : list pulse) (c : counters_t) : counters_t :=
  fold_left (fun c p => count_pulse p c) ps c.

(** How many pulses of [ps] belong to counter [u], and how many times
    that counter reaches the limit while [ps] is counted from [c]. *)
Definition same_pulse (u p : pulse) : bool :=
  match u, p with Ref, Ref | Sig, Sig => true | _, _ => false end.

Fixpoint pulses_of (u : pulse) (ps : list pulse) : Z :=
  match ps with
  | [] => 0
  | p :: rest => (if same_pulse u p then 1 else 0) + pulses_of u rest
  end.

Fixpoint limit_events (u : pulse) (ps : list pulse) (c : counters_t) : Z :=
  match ps with
  | [] => 0
  | p :: rest =>
      (if same_pulse u p && reaches_limit p c then 1 else 0)
      + limit_events u rest (count_pulse p c)
  end.

(** [isr], on the falling edge of the gate: the counts (read as
    [int16_t]) and the tallies are copied into [reading], the tallies and
    the counters are cleared.  The counters are paused meanwhile, so no
    pulse comes in between. *)
Definition isr (c : counters_t) : counters_t :=
  mkCounters (pcnt_counter_clear (unit0 c)) (pcnt_counter_clear (unit1 c)) 0 0
    (Reading.mk (to_uint32 (cnt (unit0 c))) (noverflow0 c)
                (to_uint32 (cnt (unit1 c))) (noverflow1 c))
    true.

(** After [setup]: both counters cleared by [init_counter]. *)
Definition boot_counters : counters_t :=
  mkCounters (mkUnit 0 false false) (mkUnit 0 false false) 0 0
    (Reading.mk 0 0 0 0) false.

(** A gate window can start here: counters and tallies at zero, no
    interrupt pending. *)
Definition window_start (c : counters_t) : bool :=
  (cnt (unit0 c) =? 0) && (cnt (unit1 c) =? 0)
  && (noverflow0 c =? 0) && (noverflow1 c =? 0)
  && negb (int_st (unit0 c)) && negb (int_st (unit1 c)).

(** The total of a counter as the header of the sketch defines it:
    [noverflow*PCNT_H_LIM_VAL + count]. *)
Definition total0 (r : Reading.t) : Z :=
  Reading.noverflow0 r * PCNT_H_LIM_VAL + Reading.count0 r.

Definition total1 (r : Reading.t) : Z :=
  Reading.noverflow1 r * PCNT_H_LIM_VAL + Reading.count1 r.

(** ** Frequency estimator *)

(** [float reference = 10001305.4]. *)
Definition reference : F32.float := F32.of_decimal 100013054 10.

(** [int n_ref = reading.noverflow0*PCNT_H_LIM_VAL + reading.count0]: the
    right-hand side is evaluated in [uint32_t], then converted to [int]. *)
Definition n_ref (r : Reading.t) : Z := to_int32 (total0 r).
Definition n_sig (r : Reading.t) : Z := to_int32 (total1 r).

(** [float(n_sig)/float(n_ref)*reference]. *)
Definition frequency_of (r : Reading.t) : F32.float :=
  F32.mul (F32.div (F32.of_int (n_sig r)) (F32.of_int (n_ref r))) reference.

(** *** Number of digits *)

(** [ilog10 z] is the integer part of the decimal logarithm of [z >= 1]. *)
Fixpoint ilog10_fuel (fuel : nat) (z : Z) : Z :=
  match fuel with
  | O => 0
  | S fuel' => if z <? 10 then 0 else 1 + ilog10_fuel fuel' (z / 10)
  end.

Definition ilog10 (z : Z) : Z := ilog10_fuel (S (Z.to_nat (Z.log2 z))) z.

(** [int(log10(f)+1)] for a positive rational [f = n/d].  The library's
    [log10] is taken exact, and the conversion to [int] truncates toward
    zero: for [f >= 1/10] the sum is not negative and its integer part
    is that of [log10(10 f)]; below, the sum is negative and is rounded
    up, to [- floor(log10(1/(10 f)))]. *)
Definition int_log10_plus_1 (f : Q) : Z :=
  let n := Qnum f in
  let d := Zpos (Qden f) in
  if d <=? 10 * n then ilog10 (10 * n / d) else - ilog10 (d / (10 * n)).

(** [precision = 8 - int(log10(f)+1); precision = precision<0 ? 0 : precision].
    The logarithm of a number that is not positive is not finite and its
    conversion to [int] is not defined. *)
Definition precision_of (f : F32.float) : option Z :=
  match F32.to_Q f with
  | Some q => if Qlt_le_dec 0 q then Some (Z.max 0 (8 - int_log10_plus_1 q)) else None
  | None => None
  end.

Inductive unit_t : Type := unit_Hz | unit_K | unit_M.

(** What [create_display_string] formats with ["%8.*f%c"]: the value,
    the number of digits after the point, the unit. *)
Record display_t : Type := mkDisplay
  { display_value : F32.float;
    display_precision : option Z;
    display_unit : unit_t }.

Definition create_display_string (f : F32.float) : display_t :=
  let '(f, unit) :=
    if F32.gtb f (F32.of_int 1000000) then (F32.div f (F32.of_int 1000000), unit_M)
    else if F32.gtb f (F32.of_int 1000) then (F32.div f (F32.of_int 1000), unit_K)
    else (f, unit_Hz) in
  mkDisplay f (precision_of f) unit.

(** What one reading publishes: the first display line and the line
    ["Frequency: %0.*f Hz"] on the serial port. *)
Record report_t : Type := mkReport
  { display_line1 : display_t;
    log_frequency : F32.float;
    log_precision : option Z }.

(** The counter half of one iteration of [loop]. *)
Definition loop_counter (c : counters_t) : counters_t * option report_t :=
  if ready c then
    let frequency := frequency_of (reading c) in
    let precision := precision_of frequency in
    let c' := mkCounters (unit0 c) (unit1 c) (noverflow0 c) (noverflow1 c)
                (reading c) false in
    if F32.to_bool frequency then
      (c', Some (mkReport (create_display_string frequency) frequency precision))
    else (c', None)
  else (c, None).

(** The frequency published for a reading, if any. *)
Definition published (r : Reading.t) : option F32.float :=
  match snd (loop_counter (mkCounters (mkUnit 0 false false) (mkUnit 0 false false)
                             0 0 r true)) with
  | Some rep => Some (log_frequency rep)
  | None => None
  end.

(** *** The formula of the specification *)

(** [floor(log10(f))] for a positive rational [f = n/d]. *)
Definition floor_log10 (f : Q) : Z :=
  let n := Qnum f in
  let d := Zpos (Qden f) in
  if d <=? n then ilog10 (n / d)
  else let k := ilog10 (d / n) in
       if n * 10 ^ k =? d then - k else - (k + 1).


(** ** Vocabulary of the properties *)

(** The duty of a row can be changed: [40 < d < 18000]. *)
Definition feasible (r : row_t) : bool :=
  (40 <? on_off_duration r) && (on_off_duration r <? 18000).

(** One step of the button cycle 10, 20, ..., 90, 10, ... *)
Definition next_duty (p : Z) : Z := if p =? 90 then 10 else p + 10.

(** The on and off times as the specification words them:
    [on = round(2*d*p/100)], [off = 2*d - on]. *)
Definition spec_on (d p : Z) : Z := (2 * d * p + 50) / 100.
Definition spec_off (d p : Z) : Z := 2 * d - spec_on d p.

(** The generator between two events: the encoder is bounded to the
    table, without wrap-around, and the stored duty is one of the nine
    steps. *)
Definition generator_ok (g : generator_t) : Prop :=
  RotaryEncoder.minValue (rotaryEncoder g) = 0
  /\ RotaryEncoder.maxValue (rotaryEncoder g) = 347
  /\ RotaryEncoder.circleValues (rotaryEncoder g) = false
  /\ 0 <= RotaryEncoder.position (rotaryEncoder g) <= 347
  /\ 0 <= encoderValue g <= 347
  /\ In (set_duty g) duty_steps.

(** The counters between two pulses: counts below the limit, tallies in
    [uint32_t], no interrupt left pending. *)
Definition counters_ok (c : counters_t) : Prop :=
  0 <= cnt (unit0 c) < PCNT_H_LIM_VAL
  /\ 0 <= cnt (unit1 c) < PCNT_H_LIM_VAL
  /\ int_st (unit0 c) = false
  /\ int_st (unit1 c) = false
  /\ 0 <= noverflow0 c < 2 ^ 32
  /\ 0 <= noverflow1 c < 2 ^ 32.

(** [k] is the integer part of [log10 f], that is
    [10^k <= f < 10^(k+1)], written without division for [f = n/d]. *)
Definition is_floor_log10 (f : Q) (k : Z) : Prop :=
  let n := Qnum f in
  let d := Zpos (Qden f) in
  if 0 <=? k then 10 ^ k * d <= n < 10 ^ (k + 1) * d
  else n * 10 ^ (- k - 1) < d <= n * 10 ^ (- k).


(** The tally that belongs to a counter. *)
Definition tally_of (u : pulse) (c : counters_t) : Z :=
  match u with Ref => noverflow0 c | Sig => noverflow1 c end.

(** A run from the first boot, the press that may follow it, and what
    is seen of the generator: index, stored duty, armed waveform. *)
Definition run_from_boot (ins : list input) : option generator_t :=
  match boot_generator with
  | Some g => run ins g
  | None => None
  end.

Definition press_after (ins : list input) : option generator_t :=
  match run_from_boot ins with
  | Some g => rotary_onButtonClick g
  | None => None
  end.

Definition observe (g : option generator_t) : option (Z * Z * option waveform_t) :=
  option_map (fun g => (encoderValue g, set_duty g, waveform g)) g.

(** *** Rounding to 24 bits

    The vocabulary in which the single-precision operations are
    specified: the rational value of a mantissa and an exponent, the
    position of a positive rational [x] against a mantissa [m] at an
    exponent [e] (on [m * 2^e], in the lower half of the step to
    [(m + 1) * 2^e], on its middle, in its upper half), and the rounding
    of [x] to 24 significant bits, to nearest and ties to even. *)

Definition pow2 (e : Z) : Q := (2 ^ e)%Q.

Definition Fval (m : positive) (e : Z) : Q := (inject_Z (Zpos m) * pow2 e)%Q.

Definition located (x : Q) (m e : Z) (l : location) : Prop :=
  match l with
  | loc_Exact => (x == inject_Z m * pow2 e)%Q
  | loc_Inexact Lt =>
      (inject_Z m * pow2 e < x /\ x < (inject_Z m + (1 # 2)) * pow2 e)%Q
  | loc_Inexact Eq => (x == (inject_Z m + (1 # 2)) * pow2 e)%Q
  | loc_Inexact Gt =>
      ((inject_Z m + (1 # 2)) * pow2 e < x /\ x < (inject_Z m + 1) * pow2 e)%Q
  end.

Definition located_r (x : Q) (mrs : shr_record) (e : Z) : Prop :=
  located x (shr_m mrs) e (loc_of_shr_record mrs).

(** [RN x v]: [v] is [x] rounded to 24 significant bits. *)
Definition RN (x v : Q) : Prop :=
  exists m e l,
    located x m e l /\ 2 ^ 23 <= m < 2 ^ 24
    /\ (v == inject_Z (round_nearest_even m l) * pow2 e)%Q.

(** The value [loop] computes from two positive totals: the two
    conversions to [float], the quotient and the product with
    [reference] (10001305 once stored in a [float]), each rounded to 24
    bits. *)
Definition rounded_frequency (sig ref : Z) (v : Q) : Prop :=
  exists X Y T : Q,
    RN (inject_Z sig) X /\ RN (inject_Z ref) Y
    /\ RN (X / Y) T /\ RN (T * 10001305) v.

(** *** Checks run over the whole table *)

Definition is_some {A : Type} (o : option A) : bool :=
  match o with Some _ => true | None => false end.

(** Every row arms the driver, at every duty step. *)
Definition arm_defined (r : row_t) : bool :=
  forallb (fun p => is_some (arm r p)) duty_steps.

(** The two tests on [t_dur], in single precision, against the integer
    comparisons on the duration. *)
Definition tests_agree (r : row_t) : bool :=
  let d := on_off_duration r in
  Bool.eqb (button_can_change (t_dur_of r)) (feasible r)
  && Bool.eqb (loop_cannot_apply (t_dur_of r)) ((18000 <? d) || (d <? 40)).

(** The durations of a row at duty [p]: they add up to the period, and
    the on time is the integer part of [2*d*p/100] unless that quotient
    is whole. *)
Definition durations_check (r : row_t) (p : Z) : bool :=
  let d := on_off_duration r in
  match rmt_durations (t_dur_of r) p with
  | Some (on, off) =>
      (on + off =? 2 * d)
      && (((2 * d * p) mod 100 =? 0) || (on =? (2 * d * p) / 100))
  | None => false
  end.

Definition durations_checked (r : row_t) : bool :=
  forallb (durations_check r) duty_steps.

(** The duties a row is ever armed with: any step when its duration is
    in range or is 40 (where [loop] applies the stored duty), 50
    otherwise.  The durations then fit the 15 bits of an RMT item. *)
Definition armed_with (r : row_t) (p : Z) : bool :=
  feasible r || (on_off_duration r =? 40) || (p =? 50).

Definition fits_rmt_item (r : row_t) (p : Z) : bool :=
  negb (armed_with r p)
  || match rmt_durations (t_dur_of r) p with
     | Some (on, off) =>
         (0 <=? on) && (on <? 2 ^ 15) && (0 <=? off) && (off <? 2 ^ 15)
     | None => false
     end.

(** Rows whose two durations at 50% are not both the tabulated one. *)
Definition uneven_at_50 (r : row_t) : bool :=
  match rmt_durations (t_dur_of r) 50 with
  | Some (on, off) => negb ((on =? on_off_duration r) && (off =? on_off_duration r))
  | None => true
  end.

(** *** The armed waveform and the table *)








(** [r1] is a row of lower frequency than [r2], nominal and calibrated. *)
Definition lower_frequency (r1 r2 : row_t) : bool :=
  (nominal_freq r1 <? nominal_freq r2)
  && negb (Qle_bool (calibrated_freq r2) (calibrated_freq r1)).

(** Every row is of lower frequency than the row after it. *)
Fixpoint rising (rows : list row_t) : bool :=
  match rows with
  | r1 :: ((r2 :: _) as rest) => lower_frequency r1 r2 && rising rest
  | _ => true
  end.

(** ** The arrays of RMT items *)

Module RmtItem.
(** [rmt_data_t] as the sketch uses it: two levels, two durations. *)
Record t : Type := mk
  { level0 : bool;
    duration0 : Z;
    level1 : bool;
    duration1 : Z }.
End RmtItem.

(** [buf[i] = x]; a store outside the array is an out-of-bounds access. *)
Definition store_item (i : nat) (x : RmtItem.t) (buf : list RmtItem.t)
  : option (list RmtItem.t) :=
  if (i <? length buf)%nat then Some (firstn i buf ++ x :: skipn (S i) buf)
  else None.

(** The loop that fills an array,
    [for (int i = 0; i < n; i++) { buf[i].level0 = 1; buf[i].duration0 = on;
    buf[i].level1 = 0; buf[i].duration1 = off; }], from index [i] on. *)
Fixpoint fill_items (n i : nat) (x : RmtItem.t) (buf : list RmtItem.t)
  : option (list RmtItem.t) :=
  match n with
  | O => Some buf
  | S n' =>
      match store_item i x buf with
      | Some buf' => fill_items n' (S i) x buf'
      | None => None
      end
  end.

Definition pulse_item (on off : Z) : RmtItem.t := RmtItem.mk true on false off.

(** [rmt_data_t freq_gen_bit_data[2]], zero-initialised. *)
Definition freq_gen_bit_data : list RmtItem.t :=
  repeat (RmtItem.mk false 0 false 0) 2.

(** [rmt_data_t bit_data[60]] of the sketch, [bit_data[2]] of its
    variant. *)
Definition bit_data (len : nat) : list RmtItem.t :=
  repeat (RmtItem.mk false 0 false 0) len.

(** The fill of [loop]: two items of [freq_gen_bit_data]. *)
Definition loop_fill (on off : Z) : option (list RmtItem.t) :=
  fill_items 2 0 (pulse_item on off) freq_gen_bit_data.

(** The fill of [rotary_onButtonClick]: [count] items of
    [freq_gen_bit_data], sixty in the sketch and two in its variant. *)
Definition button_fill (count : nat) (on off : Z) : option (list RmtItem.t) :=
  fill_items count 0 (pulse_item on off) freq_gen_bit_data.

(** The fill of [start_ref_clock]: [count] items of [bit_data], sixty of
    sixty in the sketch and two of two in its variant. *)
Definition start_ref_clock_fill (count : nat) (cycles_on cycles_off : Z)
  : option (list RmtItem.t) :=
  fill_items count 0 (pulse_item cycles_on cycles_off) (bit_data count).

(** ** The counter-only sketch

    The second sketch of the file is the frequency counter alone; its
    knob selects the gate time and its log line takes the number of
    digits from the reference count.  The knob is the encoder modelled
    in [RotaryEncoder], bounded here to 0..9. *)

Module CounterOnly.

Definition MIN_GATE_TIME : Z := 1000.

(** [int gt_multipliers[10]]. *)
Definition gt_multipliers : list Z :=
  [1; 5; 10; 50; 100; 500; 1000; 2000; 5000; 10000].

(** [gt_multipliers[i]]; an index outside the array is an out-of-bounds
    access. *)
Definition gt_multipliers_at (i : Z) : option Z :=
  if i <? 0 then None else nth_error gt_multipliers (Z.to_nat i).

(** The encoder and the globals [encoderValue] and
    [gate_time_multiplier]. *)
Record gate_t : Type := mkGate
  { rotaryEncoder : RotaryEncoder.t;
    encoderValue : Z;
    gate_time_multiplier : Z }.

(** [setup]: the encoder is bounded to 0..9 and set to the value found
    in RTC memory; [gate_time_multiplier] starts at 1000. *)
Definition setup (rtc_encoderValue : Z) : gate_t :=
  let enc := RotaryEncoder.setEncoderValue rtc_encoderValue
               (RotaryEncoder.setBoundaries 0 9 false RotaryEncoder.begin) in
  mkGate enc (RotaryEncoder.readEncoder enc) 1000.

(** [encoderValue = rotaryEncoder.readEncoder();
     gate_time_multiplier = gt_multipliers[encoderValue];] *)
Definition select (enc : RotaryEncoder.t) : option gate_t :=
  let encoderValue := RotaryEncoder.readEncoder enc in
  match gt_multipliers_at encoderValue with
  | Some m => Some (mkGate enc encoderValue m)
  | None => None
  end.

(** The encoder half of [loop]; a click puts the encoder back to 6. *)
Definition loop (clicked : bool) (g : gate_t) : option gate_t :=
  let '(changed, enc) := RotaryEncoder.encoderChanged (rotaryEncoder g) in
  match (if changed then select enc
         else Some (mkGate enc (encoderValue g) (gate_time_multiplier g))) with
  | Some g1 =>
      if clicked
      then select (RotaryEncoder.setEncoderValue 6 (rotaryEncoder g1))
      else Some g1
  | None => None
  end.

Definition step (i : input) (g : gate_t) : option gate_t :=
  match i with
  | Turn delta =>
      Some (mkGate (RotaryEncoder.readEncoder_ISR delta (rotaryEncoder g))
                   (encoderValue g) (gate_time_multiplier g))
  | Loop clicked => loop clicked g
  end.

Fixpoint run (ins : list input) (g : gate_t) : option gate_t :=
  match ins with
  | [] => Some g
  | i :: rest =>
      match step i g with
      | Some g' => run rest g'
      | None => None
      end
  end.

(** [timer_callback] starts the timer again for
    [MIN_GATE_TIME*gate_time_multiplier+random(500)] microseconds, an
    [int] product; [rnd] is the answer of [random(500)]. *)
Definition timer_period (g : gate_t) (rnd : Z) : Z :=
  to_int32 (MIN_GATE_TIME * gate_time_multiplier g) + rnd.

(** [precision = int(log10(n_ref)+1) - int(log10(frequency)+1);
     precision = precision<0 ? 0 : precision].  The logarithm of a
    number that is not positive is not finite and its conversion to
    [int] is not defined. *)
Definition precision_of (n_ref : Z) (frequency : F32.float) : option Z :=
  if 0 <? n_ref then
    match F32.to_Q frequency with
    | Some q =>
        if Qlt_le_dec 0 q
        then Some (Z.max 0 (int_log10_plus_1 (inject_Z n_ref) - int_log10_plus_1 q))
        else None
    | None => None
    end
  else None.

(** The gate state between two events. *)
Definition gate_ok (g : gate_t) : Prop :=
  RotaryEncoder.minValue (rotaryEncoder g) = 0
  /\ RotaryEncoder.maxValue (rotaryEncoder g) = 9
  /\ RotaryEncoder.circleValues (rotaryEncoder g) = false
  /\ 0 <= RotaryEncoder.position (rotaryEncoder g) <= 9
  /\ gt_multipliers_at (encoderValue g) = Some (gate_time_multiplier g).

End CounterOnly.

(** * Properties *)

(** ** The table *)

Lemma params_length : length params = 348%nat.
Proof. reflexivity. Qed.

Lemma params_at_In (i : Z) (r : row_t) : params_at i = Some r -> In r params.
Proof.
  unfold params_at. destruct (i <? 0); [discriminate|].
  apply nth_error_In.
Qed.

Lemma params_at_defined (i : Z) :
  0 <= i <= 347 -> exists r, params_at i = Some r.
Proof.
  intros Hi. unfold params_at.
  destruct (Z.ltb_spec i 0) as [Hneg|_]; [lia|].
  destruct (nth_error params (Z.to_nat i)) as [r|] eqn:E; [now exists r|].
  apply nth_error_None in E. rewrite params_length in E. lia.
Qed.

Lemma params_at_bounds (i : Z) (r : row_t) :
  params_at i = Some r -> 0 <= i <= 347.
Proof.
  unfold params_at. destruct (Z.ltb_spec i 0) as [|Hi]; [discriminate|].
  intros E.
  assert (H : (Z.to_nat i < length params)%nat)
    by (apply nth_error_Some; congruence).
  rewrite params_length in H. lia.
Qed.

Lemma all_rows_arm : forallb arm_defined params = true.
Proof. vm_compute. reflexivity. Qed.

Lemma all_tests_agree : forallb tests_agree params = true.
Proof. vm_compute. reflexivity. Qed.

Lemma all_durations_checked : forallb durations_checked params = true.
Proof. vm_compute. reflexivity. Qed.

(** The bit fields of the RMT items keep the durations as they are. *)
Lemma durations_fit_rmt_item (r : row_t) (p on off : Z) :
  In r params -> In p duty_steps -> armed_with r p = true ->
  rmt_durations (t_dur_of r) p = Some (on, off) ->
  0 <= on < 2 ^ 15 /\ 0 <= off < 2 ^ 15.
Proof.
  intros Hr Hp Ha E.
  assert (H : forallb (fun r => forallb (fits_rmt_item r) duty_steps) params = true)
    by (vm_compute; reflexivity).
  rewrite forallb_forall in H. specialize (H r Hr).
  rewrite forallb_forall in H. specialize (H p Hp).
  unfold fits_rmt_item in H. rewrite Ha, E in H. cbn [negb orb] in H.
  repeat (apply andb_true_iff in H as [H ?]).
  repeat match goal with
         | X : (_ <=? _) = true |- _ => apply Z.leb_le in X
         | X : (_ <? _) = true |- _ => apply Z.ltb_lt in X
         end.
  lia.
Qed.


Lemma arm_some (r : row_t) (p : Z) :
  In r params -> In p duty_steps -> exists w, arm r p = Some w.
Proof.
  intros Hr Hp.
  pose proof all_rows_arm as H.
  rewrite forallb_forall in H. specialize (H r Hr).
  unfold arm_defined in H. rewrite forallb_forall in H. specialize (H p Hp).
  destruct (arm r p) as [w|]; [now exists w | discriminate].
Qed.

Lemma button_test (r : row_t) :
  In r params -> button_can_change (t_dur_of r) = feasible r.
Proof.
  intros Hr. pose proof all_tests_agree as H.
  rewrite forallb_forall in H. specialize (H r Hr).
  unfold tests_agree in H. apply andb_true_iff in H as [H _].
  now apply Bool.eqb_prop in H.
Qed.

Lemma loop_test (r : row_t) :
  In r params ->
  loop_cannot_apply (t_dur_of r)
  = (18000 <? on_off_duration r) || (on_off_duration r <? 40).
Proof.
  intros Hr. pose proof all_tests_agree as H.
  rewrite forallb_forall in H. specialize (H r Hr).
  unfold tests_agree in H. apply andb_true_iff in H as [_ H].
  now apply Bool.eqb_prop in H.
Qed.

(** ** The generator *)

Lemma fifty_is_a_step : In 50 duty_steps.
Proof. unfold duty_steps. simpl. tauto. Qed.

Lemma next_duty_step (p : Z) : In p duty_steps -> In (next_duty p) duty_steps.
Proof.
  unfold duty_steps, next_duty. simpl.
  intros [<-|[<-|[<-|[<-|[<-|[<-|[<-|[<-|[<-|[]]]]]]]]]]; simpl; tauto.
Qed.

Lemma button_advance (p : Z) :
  In p duty_steps -> (if p <? 90 then p + 10 else 10) = next_duty p.
Proof.
  unfold duty_steps, next_duty. simpl.
  intros [<-|[<-|[<-|[<-|[<-|[<-|[<-|[<-|[<-|[]]]]]]]]]]; reflexivity.
Qed.

Lemma limit_clamps (e : RotaryEncoder.t) (x : Z) :
  RotaryEncoder.circleValues e = false ->
  RotaryEncoder.minValue e <= RotaryEncoder.maxValue e ->
  RotaryEncoder.minValue e <= RotaryEncoder.limit e x <= RotaryEncoder.maxValue e
  /\ (RotaryEncoder.minValue e <= x <= RotaryEncoder.maxValue e ->
      RotaryEncoder.limit e x = x)
  /\ (RotaryEncoder.maxValue e < x ->
      RotaryEncoder.limit e x = RotaryEncoder.maxValue e)
  /\ (x < RotaryEncoder.minValue e ->
      RotaryEncoder.limit e x = RotaryEncoder.minValue e).
Proof.
  intros Hc Hle. unfold RotaryEncoder.limit. rewrite Hc.
  destruct (Z.gtb_spec x (RotaryEncoder.maxValue e));
    destruct (Z.ltb_spec x (RotaryEncoder.minValue e)); lia.
Qed.

(** The press, at a state that satisfies the invariant. *)
Lemma button_click_ok (g : generator_t) :
  generator_ok g ->
  exists r w,
    params_at (RotaryEncoder.position (rotaryEncoder g)) = Some r
    /\ rotary_onButtonClick g
       = Some (mkGenerator (rotaryEncoder g)
                 (RotaryEncoder.position (rotaryEncoder g))
                 (if feasible r then next_duty (set_duty g) else set_duty g)
                 (Some w))
    /\ arm r (if feasible r then next_duty (set_duty g) else 50) = Some w.
Proof.
  intros (Hmin & Hmax & Hcirc & Hpos & Hidx & Hduty).
  destruct (params_at_defined _ Hpos) as [r Hr].
  pose proof (params_at_In _ _ Hr) as Hin.
  exists r.
  unfold rotary_onButtonClick, RotaryEncoder.readEncoder.
  rewrite Hr, (button_test r Hin), (button_advance _ Hduty).
  destruct (feasible r).
  - destruct (arm_some r (next_duty (set_duty g)) Hin (next_duty_step _ Hduty))
      as [w Hw].
    exists w. rewrite Hw. auto.
  - destruct (arm_some r 50 Hin fifty_is_a_step) as [w Hw].
    exists w. rewrite Hw. auto.
Qed.

Lemma button_click_keeps_ok (g g' : generator_t) :
  generator_ok g -> rotary_onButtonClick g = Some g' -> generator_ok g'.
Proof.
  intros Hok E.
  destruct (button_click_ok g Hok) as (r & w & _ & E' & _).
  rewrite E' in E. injection E as <-.
  destruct Hok as (Hmin & Hmax & Hcirc & Hpos & Hidx & Hduty).
  unfold generator_ok; simpl. repeat split; try tauto; try lia.
  destruct (feasible r); [now apply next_duty_step | assumption].
Qed.

Lemma loop_encoder_ok (g : generator_t) :
  generator_ok g ->
  exists g', loop_encoder g = Some g' /\ generator_ok g'
             /\ set_duty g' = set_duty g
             /\ RotaryEncoder.position (rotaryEncoder g')
                = RotaryEncoder.position (rotaryEncoder g).
Proof.
  intros (Hmin & Hmax & Hcirc & Hpos & Hidx & Hduty).
  unfold loop_encoder, RotaryEncoder.encoderChanged, RotaryEncoder.readEncoder.
  cbv beta iota zeta. simpl RotaryEncoder.position.
  destruct (negb (RotaryEncoder.position (rotaryEncoder g)
                  =? RotaryEncoder.lastRead (rotaryEncoder g))).
  - destruct (params_at_defined _ Hpos) as [r Hr].
    pose proof (params_at_In _ _ Hr) as Hin.
    rewrite Hr.
    assert (Hd : In (if loop_cannot_apply (t_dur_of r) then 50 else set_duty g)
                    duty_steps)
      by (destruct (loop_cannot_apply (t_dur_of r));
          [apply fifty_is_a_step | assumption]).
    destruct (arm_some r _ Hin Hd) as [w Hw]. rewrite Hw.
    eexists. split; [reflexivity|].
    unfold generator_ok; simpl. repeat split; try tauto; lia.
  - eexists. split; [reflexivity|].
    unfold generator_ok; simpl. repeat split; try tauto; lia.
Qed.

Lemma step_ok (i : input) (g : generator_t) :
  generator_ok g -> exists g', step i g = Some g' /\ generator_ok g'.
Proof.
  intros Hok. destruct i as [delta|clicked]; simpl.
  - eexists. split; [reflexivity|].
    destruct Hok as (Hmin & Hmax & Hcirc & Hpos & Hidx & Hduty).
    unfold generator_ok; simpl. repeat split; try tauto; try lia;
      destruct (limit_clamps (rotaryEncoder g)
                  (RotaryEncoder.position (rotaryEncoder g) + delta) Hcirc)
        as [H _]; lia.
  - unfold loop_generator.
    destruct (loop_encoder_ok g Hok) as (g1 & E1 & Hok1 & _).
    rewrite E1. destruct clicked.
    + destruct (button_click_ok g1 Hok1) as (r & w & _ & E2 & _).
      eexists. split; [exact E2|].
      apply (button_click_keeps_ok g1 _ Hok1 E2).
    + now exists g1.
Qed.

Lemma run_ok (ins : list input) :
  forall g, generator_ok g -> exists g', run ins g = Some g' /\ generator_ok g'.
Proof.
  induction ins as [|i rest IH]; intros g Hok; simpl.
  - now exists g.
  - destruct (step_ok i g Hok) as (g1 & E & Hok1). rewrite E. now apply IH.
Qed.

Lemma setup_ok (rtc_encoderValue rtc_set_duty : Z) :
  In rtc_set_duty duty_steps ->
  exists g, setup_generator rtc_encoderValue rtc_set_duty = Some g
            /\ generator_ok g /\ set_duty g = rtc_set_duty.
Proof.
  intros Hd. unfold setup_generator, RotaryEncoder.readEncoder.
  set (e := RotaryEncoder.setBoundaries 0 347 false RotaryEncoder.begin).
  assert (Hb : 0 <= RotaryEncoder.limit e rtc_encoderValue <= 347)
    by (destruct (limit_clamps e rtc_encoderValue) as [H _];
        [reflexivity | simpl; lia | exact H]).
  simpl RotaryEncoder.position.
  destruct (params_at_defined _ Hb) as [r Hr]. rewrite Hr.
  eexists. split; [reflexivity|].
  unfold generator_ok; simpl. repeat split; try tauto; lia.
Qed.



(** C9: after [setup] and any sequence of knob movements and loop
    iterations the encoder position and [encoderValue] lie in [0, 347];
    a movement that would leave the range stops at the bound it crosses
    and does not wrap; every table access of the run was inside the 348
    rows (the run is defined), and so is the next one. *)
Theorem selected_index_stays_in_table
    (rtc_encoderValue rtc_set_duty : Z) (ins : list input) :
  In rtc_set_duty duty_steps ->
  exists g0 g,
    setup_generator rtc_encoderValue rtc_set_duty = Some g0
    /\ run ins g0 = Some g
    /\ 0 <= encoderValue g <= 347
    /\ 0 <= RotaryEncoder.readEncoder (rotaryEncoder g) <= 347
    /\ (exists r, params_at (encoderValue g) = Some r)
    /\ (exists r, params_at (RotaryEncoder.readEncoder (rotaryEncoder g)) = Some r)
    /\ Z.of_nat (length params) = 348
    /\ (forall delta,
          let p := RotaryEncoder.readEncoder (rotaryEncoder g) in
          let p' := RotaryEncoder.readEncoder
                      (RotaryEncoder.readEncoder_ISR delta (rotaryEncoder g)) in
          (0 <= p + delta <= 347 -> p' = p + delta)
          /\ (347 < p + delta -> p' = 347)
          /\ (p + delta < 0 -> p' = 0)).
Proof.
  intros Hd.
  destruct (setup_ok rtc_encoderValue rtc_set_duty Hd) as (g0 & E0 & Hok0 & _).
  destruct (run_ok ins g0 Hok0) as (g & E & Hok).
  exists g0, g.
  destruct Hok as (Hmin & Hmax & Hcirc & Hpos & Hidx & Hduty).
  unfold RotaryEncoder.readEncoder.
  repeat match goal with |- _ /\ _ => split end; try assumption; try lia.
  - now apply params_at_defined.
  - now apply params_at_defined.
  - reflexivity.
  - intros delta. simpl.
    destruct (limit_clamps (rotaryEncoder g)
                (RotaryEncoder.position (rotaryEncoder g) + delta) Hcirc)
      as (_ & Hin & Hhi & Hlo); [lia|].
    rewrite Hmin, Hmax in *. auto.
Qed.

Lemma selected_index_stays_in_table_witness :
  In 50 duty_steps
  /\ exists g0 g,
       setup_generator 185 50 = Some g0
       /\ run [Turn 1000; Loop false; Turn 1; Loop true] g0 = Some g
       /\ encoderValue g = 347.
Proof.
  split; [apply fifty_is_a_step|].
  destruct (selected_index_stays_in_table 185 50
              [Turn 1000; Loop false; Turn 1; Loop true] fifty_is_a_step)
    as (g0 & g & E0 & E & _).
  exists g0, g. split; [exact E0|]. split; [exact E|].
  vm_compute in E0. injection E0 as <-.
  vm_compute in E. injection E as <-. reflexivity.
Defined.



(** The two tests against the claim: [loop] forces 50% at every row
    outside (40, 18000) but the one at 40 ticks, and applies the stored
    duty at every row inside. *)
Lemma loop_forces_50_off_the_boundary (r : row_t) :
  In r params -> feasible r = false -> on_off_duration r <> 40 ->
  loop_cannot_apply (t_dur_of r) = true.
Proof.
  intros Hin Hf Hd. rewrite (loop_test r Hin).
  assert (H18 : forallb (fun r => negb (on_off_duration r =? 18000)) params = true)
    by (vm_compute; reflexivity).
  rewrite forallb_forall in H18. specialize (H18 r Hin).
  apply negb_true_iff, Z.eqb_neq in H18.
  unfold feasible in Hf. apply andb_false_iff in Hf.
  apply orb_true_iff.
  destruct Hf as [Hf|Hf]; [right | left]; apply Z.ltb_ge in Hf; apply Z.ltb_lt; lia.
Qed.

Lemma loop_applies_inside_range (r : row_t) :
  In r params -> feasible r = true -> loop_cannot_apply (t_dur_of r) = false.
Proof.
  intros Hin Hf. rewrite (loop_test r Hin).
  unfold feasible in Hf. apply andb_true_iff in Hf as [H1 H2].
  apply Z.ltb_lt in H1, H2. apply orb_false_iff.
  split; apply Z.ltb_ge; lia.
Qed.

(** C3 (the two paths differ at a duration of exactly 40): row 344 has
    [d = 40], outside the open interval (40, 18000).  With a stored
    duty of 60, turning the knob to that row makes [loop] arm the driver
    at 60% (48 ticks on, 32 off); a press at the same row arms it at
    50% (40 and 40).  At every row of the table the test of
    [rotary_onButtonClick] is the open interval of the claim, and so is
    the test of [loop] at every row but that one. *)
Theorem loop_applies_stored_duty_at_40_ticks :
  (option_map on_off_duration (params_at 344) = Some 40
   /\ option_map feasible (params_at 344) = Some false
   /\ loop_cannot_apply (F32.of_int 40) = false
   /\ button_can_change (F32.of_int 40) = false
   /\ observe (run_from_boot [Loop true; Turn 159; Loop false])
      = Some (344, 60, Some (mkWaveform 1 48 32 60))
   /\ observe (press_after [Turn 159; Loop false])
      = Some (344, 50, Some (mkWaveform 1 40 40 50)))
  /\ (forall r, In r params -> button_can_change (t_dur_of r) = feasible r)
  /\ (forall r, In r params -> on_off_duration r <> 40 ->
                loop_cannot_apply (t_dur_of r) = negb (feasible r)).
Proof.
  split; [vm_compute; repeat split|]. split; [exact button_test|].
  intros r Hin Hd. destruct (feasible r) eqn:Hf; cbn [negb].
  - now apply loop_applies_inside_range.
  - now apply loop_forces_50_off_the_boundary.
Qed.

(** C4, as stated, fails: at [d = 4078] and 60% the driver gets 4893
    and 3263 ticks, not the rounded 4894 and 3262. *)
Lemma on_time_is_not_rounded :
  option_map on_off_duration (params_at 85) = Some 4078
  /\ option_map feasible (params_at 85) = Some true
  /\ rmt_durations (F32.of_int 4078) 60 = Some (4893, 3263)
  /\ spec_on 4078 60 = 4894 /\ spec_off 4078 60 = 3262
  /\ rmt_durations (F32.of_int 4078) 60 <> Some (spec_on 4078 60, spec_off 4078 60).
Proof. vm_compute. repeat split. discriminate. Qed.

(** C4, amended: for a row with [40 < d < 18000] and a duty step [p],
    the two durations handed to the driver add up to the period [2*d],
    and the on time is the integer part of [2*d*p/100] whenever that
    quotient is not whole ([int(t_on)] truncates, nothing rounds);
    [d = 4078] at 60% gives 4893 ticks on and 3263 off. *)
Theorem durations_are_truncated :
  (forall r p,
      In r params -> feasible r = true -> In p duty_steps ->
      exists on off,
        rmt_durations (t_dur_of r) p = Some (on, off)
        /\ on + off = 2 * on_off_duration r
        /\ ((2 * on_off_duration r * p) mod 100 <> 0 ->
            on = (2 * on_off_duration r * p) / 100))
  /\ rmt_durations (F32.of_int 4078) 60 = Some (4893, 3263)
  /\ 4893 + 3263 = 2 * 4078.
Proof.
  split; [|split; vm_compute; reflexivity].
  intros r p Hr _ Hp.
  pose proof all_durations_checked as H.
  rewrite forallb_forall in H. specialize (H r Hr).
  unfold durations_checked in H. rewrite forallb_forall in H.
  specialize (H p Hp). unfold durations_check in H.
  destruct (rmt_durations (t_dur_of r) p) as [[on off]|]; [|discriminate].
  apply andb_true_iff in H as [Hsum Hon].
  exists on, off. split; [reflexivity|].
  split; [now apply Z.eqb_eq|].
  intros Hm. apply orb_true_iff in Hon as [Hz|Hq].
  - apply Z.eqb_eq in Hz. contradiction.
  - now apply Z.eqb_eq.
Qed.

Lemma durations_are_truncated_witness :
  exists r,
    In r params /\ feasible r = true /\ In 60 duty_steps
    /\ on_off_duration r = 4078
    /\ rmt_durations (t_dur_of r) 60 = Some (4893, 3263).
Proof.
  set (r := row 109 4078 90 (9000008672366245 # 100000000000000)).
  assert (Hin : In r params) by (apply (params_at_In 85); reflexivity).
  assert (Hp : In 60 duty_steps) by (unfold duty_steps; simpl; tauto).
  exists r. split; [exact Hin|]. split; [reflexivity|]. split; [exact Hp|].
  split; [reflexivity|].
  destruct (proj1 durations_are_truncated r 60 Hin eq_refl Hp)
    as (on & off & E & Hsum & Hon).
  rewrite E. f_equal.
  assert (Hm : (2 * on_off_duration r * 60) mod 100 <> 0)
    by (vm_compute; discriminate).
  specialize (Hon Hm). simpl on_off_duration in *.
  change (2 * 4078 * 60 / 100) with 4893 in Hon. subst on.
  f_equal. lia.
Defined.

(** C5 (the durations at 50% are not always the tabulated one): row 2
    has [d = 28433], outside (40, 18000), so every press and every turn
    arms it at 50%; the driver then gets 28432 ticks on and 28434 off,
    from [loop] and from [rotary_onButtonClick] alike.  Twelve rows
    behave so; the row with [d = 32393] gets 32393 and 32393. *)
Theorem durations_at_50_miss_the_table :
  option_map on_off_duration (params_at 2) = Some 28433
  /\ option_map feasible (params_at 2) = Some false
  /\ rmt_durations (F32.of_int 28433) 50 = Some (28432, 28434)
  /\ observe (run_from_boot [Turn (-183); Loop false])
     = Some (2, 50, Some (mkWaveform 201 28432 28434 50))
  /\ observe (press_after [Turn (-183)])
     = Some (2, 50, Some (mkWaveform 201 28432 28434 50))
  /\ map on_off_duration (filter uneven_at_50 params)
     = [28433; 28433; 7327; 7327; 3869; 449; 3810; 212; 6452; 1905; 418; 4001]
  /\ option_map on_off_duration (params_at 0) = Some 32393
  /\ rmt_durations (F32.of_int 32393) 50 = Some (32393, 32393).
Proof. vm_compute. repeat split. Qed.

(** ** The counters *)

Lemma to_uint32_small (z : Z) : 0 <= z < 2 ^ 32 -> to_uint32 z = z.
Proof. intros H. unfold to_uint32. now apply Z.mod_small. Qed.

Lemma to_uint32_range (z : Z) : 0 <= to_uint32 z < 2 ^ 32.
Proof. unfold to_uint32. apply Z.mod_pos_bound. lia. Qed.

Lemma to_uint32_add (a b : Z) : to_uint32 (to_uint32 a + b) = to_uint32 (a + b).
Proof. unfold to_uint32. apply Zplus_mod_idemp_l. Qed.

(** One pulse: the invariant is kept, the count of the pulsed unit goes
    up by one or back to zero, and the tally moves exactly when the
    limit is reached. *)
Lemma count_pulse_spec (u p : pulse) (c : counters_t) :
  counters_ok c ->
  let hit := if same_pulse u p && reaches_limit p c then 1 else 0 in
  counters_ok (count_pulse p c)
  /\ cnt (unit_of u (count_pulse p c)) + PCNT_H_LIM_VAL * hit
     = cnt (unit_of u c) + (if same_pulse u p then 1 else 0)
  /\ tally_of u (count_pulse p c) = to_uint32 (tally_of u c + hit).
Proof.
  intros (H0 & H1 & Hi0 & Hi1 & Hn0 & Hn1).
  destruct c as [[c0 i0 l0] [c1 i1 l1] n0 n1 rd rdy].
  cbn [unit0 unit1 cnt int_st h_lim_lat noverflow0 noverflow1] in *.
  subst i0 i1.
  pose proof (to_uint32_range (n0 + 1)) as R0.
  pose proof (to_uint32_range (n1 + 1)) as R1.
  pose proof (to_uint32_small n0 Hn0) as S0.
  pose proof (to_uint32_small n1 Hn1) as S1.
  unfold counters_ok, count_pulse, reaches_limit, pcnt_pulse, pcnt_intr_handler,
    handle_unit0, handle_unit1, unit_of, tally_of, same_pulse, PCNT_H_LIM_VAL in *.
  destruct p, u;
    cbn [unit0 unit1 cnt int_st h_lim_lat noverflow0 noverflow1 andb orb];
    match goal with
    | |- context [?a + 1 =? 20000] => destruct (Z.eqb_spec (a + 1) 20000)
    end;
    cbn [unit0 unit1 cnt int_st h_lim_lat noverflow0 noverflow1 andb orb];
    rewrite ?Z.add_0_r, ?S0, ?S1;
    repeat split; try lia; try reflexivity.
Qed.

Lemma limit_events_nonneg (u : pulse) (ps : list pulse) :
  forall c, 0 <= limit_events u ps c.
Proof.
  induction ps as [|p rest IH]; intros c; simpl; [lia|].
  specialize (IH (count_pulse p c)).
  destruct (same_pulse u p && reaches_limit p c); lia.
Qed.

Lemma count_pulses_spec (u : pulse) (ps : list pulse) :
  forall c,
    counters_ok c ->
    counters_ok (count_pulses ps c)
    /\ cnt (unit_of u (count_pulses ps c)) + PCNT_H_LIM_VAL * limit_events u ps c
       = cnt (unit_of u c) + pulses_of u ps
    /\ tally_of u (count_pulses ps c)
       = to_uint32 (tally_of u c + limit_events u ps c).
Proof.
  induction ps as [|p rest IH]; intros c Hok.
  - simpl. split; [exact Hok|]. split; [lia|].
    rewrite Z.add_0_r. symmetry. apply to_uint32_small.
    destruct Hok as (_ & _ & _ & _ & Hn0 & Hn1). destruct u; assumption.
  - destruct (count_pulse_spec u p c Hok) as (Hok1 & Hc1 & Ht1).
    destruct (IH (count_pulse p c) Hok1) as (Hok2 & Hc2 & Ht2).
    change (count_pulses (p :: rest) c) with (count_pulses rest (count_pulse p c)).
    simpl pulses_of. simpl limit_events.
    split; [assumption|]. split.
    + cbv zeta in Hc1. lia.
    + rewrite Ht2, Ht1. cbv zeta. rewrite to_uint32_add. f_equal. lia.
Qed.

Lemma window_start_ok (c : counters_t) :
  window_start c = true ->
  counters_ok c
  /\ cnt (unit0 c) = 0 /\ cnt (unit1 c) = 0
  /\ noverflow0 c = 0 /\ noverflow1 c = 0.
Proof.
  unfold window_start, counters_ok, PCNT_H_LIM_VAL. intros H.
  repeat (apply andb_true_iff in H as [H ?]).
  repeat match goal with
         | E : (_ =? _) = true |- _ => apply Z.eqb_eq in E
         | E : negb _ = true |- _ => apply negb_true_iff in E
         end.
  apply Z.eqb_eq in H.
  repeat split; try assumption; lia.
Qed.

Lemma snapshot_spec (c : counters_t) (ps : list pulse) :
  window_start c = true ->
  let c' := isr (count_pulses ps c) in
  let r := reading c' in
  0 <= Reading.count0 r < PCNT_H_LIM_VAL
  /\ 0 <= Reading.count1 r < PCNT_H_LIM_VAL
  /\ Reading.noverflow0 r = to_uint32 (limit_events Ref ps c)
  /\ Reading.noverflow1 r = to_uint32 (limit_events Sig ps c)
  /\ pulses_of Ref ps = limit_events Ref ps c * PCNT_H_LIM_VAL + Reading.count0 r
  /\ pulses_of Sig ps = limit_events Sig ps c * PCNT_H_LIM_VAL + Reading.count1 r
  /\ (limit_events Ref ps c < 2 ^ 32 -> total0 r = pulses_of Ref ps)
  /\ (limit_events Sig ps c < 2 ^ 32 -> total1 r = pulses_of Sig ps)
  /\ ready c' = true
  /\ window_start c' = true.
Proof.
  intros Hs.
  destruct (window_start_ok c Hs) as (Hok & Hc0 & Hc1 & Hn0 & Hn1).
  destruct (count_pulses_spec Ref ps c Hok) as (Hok' & HcR & HtR).
  destruct (count_pulses_spec Sig ps c Hok) as (_ & HcS & HtS).
  pose proof (limit_events_nonneg Ref ps c) as HeR.
  pose proof (limit_events_nonneg Sig ps c) as HeS.
  cbn [unit_of tally_of] in HcR, HtR, HcS, HtS.
  rewrite Hc0 in HcR. rewrite Hn0 in HtR. rewrite Hc1 in HcS. rewrite Hn1 in HtS.
  rewrite Z.add_0_l in HtR, HtS.
  destruct Hok' as (H0 & H1 & Hi0 & Hi1 & _ & _).
  cbv zeta. unfold total0, total1, isr.
  cbn [reading ready Reading.count0 Reading.count1
       Reading.noverflow0 Reading.noverflow1].
  rewrite !to_uint32_small by (unfold PCNT_H_LIM_VAL in *; lia).
  rewrite HtR, HtS.
  repeat match goal with |- _ /\ _ => split end;
    try lia; try reflexivity.
  - intros Hlt. rewrite to_uint32_small by lia. lia.
  - intros Hlt. rewrite to_uint32_small by lia. lia.
  - unfold window_start, pcnt_counter_clear.
    cbn [unit0 unit1 cnt int_st noverflow0 noverflow1].
    now rewrite Hi0, Hi1.
Qed.

Lemma two_overflows_and_150 :
  let r := reading (isr (count_pulses (repeat Ref (Z.to_nat 40150)) boot_counters)) in
  Reading.noverflow0 r = 2 /\ Reading.count0 r = 150 /\ total0 r = 40150.
Proof. vm_compute. repeat split. Qed.

(** C8: when the gate closes on a window that counted the pulses [ps],
    the snapshot taken by [isr] holds, for each counter, a count in
    [0, 20000) and a tally that was incremented (in [uint32_t]) once for
    each time the counter reached 20000; the pulses of the window are
    [events * 20000 + count], which is the total
    [noverflow * 20000 + count] of the reading as long as the tally did
    not wrap.  The reading is marked ready and the next window starts
    from zero.  40150 reference pulses give a tally of 2, a count of 150
    and a total of 40150. *)
Theorem snapshot_total (c : counters_t) (ps : list pulse) :
  window_start c = true ->
  let c' := isr (count_pulses ps c) in
  let r := reading c' in
  0 <= Reading.count0 r < PCNT_H_LIM_VAL
  /\ 0 <= Reading.count1 r < PCNT_H_LIM_VAL
  /\ Reading.noverflow0 r = to_uint32 (limit_events Ref ps c)
  /\ Reading.noverflow1 r = to_uint32 (limit_events Sig ps c)
  /\ pulses_of Ref ps = limit_events Ref ps c * PCNT_H_LIM_VAL + Reading.count0 r
  /\ pulses_of Sig ps = limit_events Sig ps c * PCNT_H_LIM_VAL + Reading.count1 r
  /\ (limit_events Ref ps c < 2 ^ 32 -> total0 r = pulses_of Ref ps)
  /\ (limit_events Sig ps c < 2 ^ 32 -> total1 r = pulses_of Sig ps)
  /\ ready c' = true
  /\ window_start c' = true
  /\ (let r' := reading (isr (count_pulses (repeat Ref (Z.to_nat 40150))
                                boot_counters)) in
      Reading.noverflow0 r' = 2 /\ Reading.count0 r' = 150 /\ total0 r' = 40150).
Proof.
  intros Hs c' r.
  destruct (snapshot_spec c ps Hs)
    as (H1 & H2 & H3 & H4 & H5 & H6 & H7 & H8 & H9 & H10).
  repeat (split; [assumption|]).
  exact two_overflows_and_150.
Qed.

Lemma snapshot_total_witness :
  window_start boot_counters = true
  /\ (let r := reading (isr (count_pulses [Ref; Sig; Ref; Ref] boot_counters)) in
      Reading.count0 r = 3 /\ Reading.count1 r = 1 /\ total0 r = 3).
Proof.
  split; [reflexivity|].
  pose proof (snapshot_total boot_counters [Ref; Sig; Ref; Ref] eq_refl) as H.
  cbv zeta in H |- *.
  destruct H as (_ & _ & _ & _ & HpR & HpS & HtR & _).
  split; [reflexivity|]. split; [reflexivity|].
  rewrite HtR; [reflexivity|]. vm_compute. reflexivity.
Defined.

(** ** Single precision *)

Lemma pow2_pos (e : Z) : (0 < pow2 e)%Q.
Proof. apply Qpower_0_lt. reflexivity. Qed.

Lemma pow2_add (a b : Z) : (pow2 (a + b) == pow2 a * pow2 b)%Q.
Proof. apply Qpower_plus. discriminate. Qed.

Lemma pow2_succ (e : Z) : (pow2 (e + 1) == 2 * pow2 e)%Q.
Proof. rewrite pow2_add. unfold pow2 at 2. simpl. ring. Qed.

Lemma inject_Z_xO (p : positive) : (inject_Z (Zpos p~0) == 2 * inject_Z (Zpos p))%Q.
Proof. rewrite Pos2Z.inj_xO, inject_Z_mult. reflexivity. Qed.

Lemma inject_Z_xI (p : positive) : (inject_Z (Zpos p~1) == 2 * inject_Z (Zpos p) + 1)%Q.
Proof. rewrite Pos2Z.inj_xI, inject_Z_plus, inject_Z_mult. reflexivity. Qed.

Lemma shr_1_located (x : Q) (mrs : shr_record) (e : Z) :
  0 <= shr_m mrs -> located_r x mrs e -> located_r x (shr_1 mrs) (e + 1).
Proof.
  destruct mrs as [m r s]. unfold located_r. simpl shr_m at 1 2.
  intros Hm H.
  pose proof (pow2_pos e) as Hu. pose proof (pow2_succ e) as Hs.
  destruct m as [|[p|p|]|p]; [| | | |lia];
    destruct r, s; simpl in H |- *;
    rewrite ?inject_Z_xO, ?inject_Z_xI in H; rewrite ?Hs;
    change (inject_Z 0) with 0%Q in *; change (inject_Z 1) with 1%Q in *;
    try lra.
Qed.

Lemma shr_1_m (mrs : shr_record) :
  0 <= shr_m mrs -> shr_m (shr_1 mrs) = shr_m mrs / 2.
Proof.
  destruct mrs as [m r s]. cbn [shr_m]. intros Hm.
  destruct m as [|[p|p|]|p]; cbn [shr_1 shr_m]; try reflexivity; try lia.
  - rewrite (Pos2Z.inj_xI p). apply Z.div_unique with 1; lia.
  - rewrite (Pos2Z.inj_xO p). apply Z.div_unique with 0; lia.
Qed.

Lemma iter_pos_invariant {A : Type} (f : A -> A) (P : Z -> A -> Prop) :
  (forall k a, P k a -> P (k + 1) (f a)) ->
  forall n k a, P k a -> P (k + Zpos n) (iter_pos f n a).
Proof.
  intros Hstep. induction n as [n IH|n IH|]; intros k a Ha; simpl.
  - replace (k + Zpos n~1) with (k + 1 + Zpos n + Zpos n) by lia.
    apply IH, IH, Hstep, Ha.
  - replace (k + Zpos n~0) with (k + Zpos n + Zpos n) by lia.
    apply IH, IH, Ha.
  - apply Hstep, Ha.
Qed.

(** [n] shifts: the mantissa is divided by [2^n] and the position of
    [x] is kept. *)
Lemma shr_iter_located (x : Q) (n : positive) (mrs : shr_record) (e : Z) :
  0 <= shr_m mrs -> located_r x mrs e ->
  let mrs' := iter_pos shr_1 n mrs in
  located_r x mrs' (e + Zpos n)
  /\ shr_m mrs' = shr_m mrs / 2 ^ Zpos n.
Proof.
  intros Hm H.
  pose (P := fun (k : Z) (a : shr_record) =>
               0 <= k /\ 0 <= shr_m a /\ located_r x a (e + k)
               /\ shr_m a = shr_m mrs / 2 ^ k).
  assert (Hstep : forall k a, P k a -> P (k + 1) (shr_1 a)).
  { intros k a (Hk & Ha & Hl & Hv). unfold P.
    rewrite shr_1_m by assumption.
    split; [lia|]. split; [apply Z.div_pos; lia|]. split.
    - replace (e + (k + 1)) with (e + k + 1) by lia.
      now apply shr_1_located.
    - rewrite Hv, Z.pow_add_r by lia. rewrite Z.div_div by lia.
      reflexivity. }
  assert (H0 : P 0 mrs).
  { unfold P. rewrite Z.add_0_r, Z.pow_0_r, Z.div_1_r. auto with zarith. }
  destruct (iter_pos_invariant shr_1 P Hstep n 0 mrs H0) as (_ & _ & Hl & Hv).
  rewrite Z.add_0_l in Hl, Hv. split; assumption.
Qed.

Lemma digits2_size (p : positive) : digits2_pos p = Pos.size p.
Proof. induction p; simpl; congruence. Qed.

Lemma digits2_bounds (p : positive) :
  2 ^ (Zpos (digits2_pos p) - 1) <= Zpos p < 2 ^ Zpos (digits2_pos p).
Proof.
  rewrite digits2_size.
  pose proof (Pos.size_gt p) as Hgt. pose proof (Pos.size_le p) as Hle.
  apply Pos2Z.pos_lt_pos in Hgt. apply Pos2Z.pos_le_pos in Hle.
  rewrite Pos2Z.inj_pow in Hgt, Hle. rewrite (Pos2Z.inj_xO p) in Hle.
  assert (Hs : 2 ^ Zpos (Pos.size p) = 2 * 2 ^ (Zpos (Pos.size p) - 1)).
  { replace (Zpos (Pos.size p)) with (Zpos (Pos.size p) - 1 + 1) at 1 by lia.
    rewrite Z.pow_add_r by lia. lia. }
  lia.
Qed.

(** The number of digits is determined by the bounds. *)
Lemma digits2_unique (p : positive) (d : Z) :
  2 ^ (d - 1) <= Zpos p < 2 ^ d -> Zpos (digits2_pos p) = d.
Proof.
  intros [Hlo Hhi]. pose proof (digits2_bounds p) as [Hlo' Hhi'].
  set (d' := Zpos (digits2_pos p)) in *.
  assert (Hd' : 0 < d') by (unfold d'; lia).
  assert (Hd : 0 < d).
  { destruct (Z.lt_ge_cases 0 d) as [|Hle]; [assumption|].
    destruct (Z.eq_dec d 0) as [->|Hne].
    - change (2 ^ 0) with 1 in Hhi. lia.
    - rewrite Z.pow_neg_r in Hhi by lia. lia. }
  destruct (Z.lt_trichotomy d' d) as [Hlt|[Heq|Hgt]]; [|assumption|].
  - assert (2 ^ d' <= 2 ^ (d - 1)) by (apply Z.pow_le_mono_r; lia). lia.
  - assert (2 ^ d <= 2 ^ (d' - 1)) by (apply Z.pow_le_mono_r; lia). lia.
Qed.

Lemma loc_of_shr_record_of_loc (m : Z) (l : location) :
  loc_of_shr_record (shr_record_of_loc m l) = l
  /\ shr_m (shr_record_of_loc m l) = m.
Proof. destruct l as [|[]]; split; reflexivity. Qed.

Lemma fexp_normal (e : Z) : -149 <= e - 24 -> fexp 24 128 e = e - 24.
Proof. intros H. unfold fexp, emin. lia. Qed.

(** The first shift of [binary_round_aux]: a mantissa of at least 24
    digits is cut down to 24. *)
Lemma shr_fexp_spec (x : Q) (mx : positive) (ex : Z) (lx : location) :
  located x (Zpos mx) ex lx ->
  24 <= Zpos (digits2_pos mx) ->
  -149 <= Zpos (digits2_pos mx) + ex - 24 ->
  let mrs := fst (shr_fexp 24 128 (Zpos mx) ex lx) in
  let e := snd (shr_fexp 24 128 (Zpos mx) ex lx) in
  e = Zpos (digits2_pos mx) + ex - 24
  /\ located_r x mrs e
  /\ 2 ^ 23 <= shr_m mrs < 2 ^ 24.
Proof.
  intros Hloc Hd He. cbv zeta.
  pose proof (digits2_bounds mx) as Hb.
  set (d := Zpos (digits2_pos mx)) in *.
  unfold shr_fexp. cbn [Zdigits2]. fold d.
  rewrite fexp_normal by lia.
  destruct (loc_of_shr_record_of_loc (Zpos mx) lx) as [Hl Hm].
  replace (d + ex - 24 - ex) with (d - 24) by lia.
  destruct (d - 24) as [|n|n] eqn:En; [| |lia].
  - cbn [shr fst snd]. unfold located_r. rewrite Hl, Hm.
    assert (d = 24) by lia.
    replace (d - 1) with 23 in Hb by lia. replace d with 24 in Hb by lia.
    split; [lia|]. split; [assumption|]. exact Hb.
  - cbn [shr fst snd].
    assert (Hloc' : located_r x (shr_record_of_loc (Zpos mx) lx) ex)
      by (unfold located_r; now rewrite Hl, Hm).
    destruct (shr_iter_located x n _ ex ltac:(rewrite Hm; lia) Hloc')
      as [Hl' Hm'].
    rewrite Hm in Hm'.
    split; [lia|]. split; [exact Hl'|].
    rewrite Hm'.
    assert (Hp : 0 < 2 ^ Zpos n) by (apply Z.pow_pos_nonneg; lia).
    assert (H1 : 2 ^ (d - 1) = 2 ^ 23 * 2 ^ Zpos n).
    { rewrite <- Z.pow_add_r by lia. f_equal. lia. }
    assert (H2 : 2 ^ d = 2 ^ 24 * 2 ^ Zpos n).
    { rewrite <- Z.pow_add_r by lia. f_equal. lia. }
    split.
    + apply Z.div_le_lower_bound; lia.
    + apply Z.div_lt_upper_bound; lia.
Qed.

Lemma round_bounds (m : Z) (l : location) :
  m <= round_nearest_even m l <= m + 1.
Proof.
  destruct l as [|[]]; cbn [round_nearest_even]; try lia.
  destruct (Z.even m); lia.
Qed.

(** After the rounding, the mantissa has 24 digits, or is [2^24] and is
    shifted once more. *)
Lemma renorm_spec (m1 e : Z) :
  2 ^ 23 <= m1 <= 2 ^ 24 -> -149 <= e ->
  let mrs := fst (shr_fexp 24 128 m1 e loc_Exact) in
  let e' := snd (shr_fexp 24 128 m1 e loc_Exact) in
  exists m : positive,
    shr_m mrs = Zpos m
    /\ Zpos (digits2_pos m) = 24
    /\ (e' = e \/ e' = e + 1)
    /\ (inject_Z (Zpos m) * pow2 e' == inject_Z m1 * pow2 e)%Q.
Proof.
  intros Hm He. cbv zeta.
  destruct m1 as [|p|p]; try (change (2 ^ 23) with 8388608 in Hm; lia).
  unfold shr_fexp. cbn [Zdigits2].
  destruct (Z.eq_dec (Zpos p) (2 ^ 24)) as [E|E].
  - injection E as ->.
    change (Z.pos (digits2_pos 16777216)) with 25.
    rewrite fexp_normal by lia.
    replace (25 + e - 24 - e) with 1 by lia.
    cbn [shr fst snd iter_pos shr_record_of_loc shr_1 shr_m].
    exists 8388608%positive. split; [reflexivity|]. split; [reflexivity|].
    split; [right; reflexivity|].
    rewrite pow2_succ.
    change (inject_Z 8388608) with (8388608#1)%Q.
    change (inject_Z 16777216) with (16777216#1)%Q. ring.
  - assert (Hd : Zpos (digits2_pos p) = 24).
    { apply digits2_unique. change (24 - 1) with 23. lia. }
    rewrite Hd, fexp_normal by lia.
    replace (24 + e - 24 - e) with 0 by lia.
    cbn [shr fst snd shr_record_of_loc shr_m].
    exists p. split; [reflexivity|]. split; [assumption|].
    split; [left; reflexivity|reflexivity].
Qed.

Lemma binary_round_aux_spec (x : Q) (sx : bool) (mx : positive) (ex : Z)
    (lx : location) :
  located x (Zpos mx) ex lx ->
  24 <= Zpos (digits2_pos mx) ->
  -149 <= Zpos (digits2_pos mx) + ex - 24 ->
  Zpos (digits2_pos mx) + ex - 23 <= 104 ->
  exists m e,
    binary_round_aux 24 128 sx (Zpos mx) ex lx = S754_finite sx m e
    /\ Zpos (digits2_pos m) = 24
    /\ (e = Zpos (digits2_pos mx) + ex - 24 \/ e = Zpos (digits2_pos mx) + ex - 23)
    /\ RN x (inject_Z (Zpos m) * pow2 e).
Proof.
  intros Hloc Hd Hlo Hhi.
  destruct (shr_fexp_spec x mx ex lx Hloc Hd Hlo) as (He1 & Hl1 & Hm1).
  unfold binary_round_aux.
  destruct (shr_fexp 24 128 (Zpos mx) ex lx) as [mrs1 e1] eqn:E1.
  cbn [fst snd] in He1, Hl1, Hm1.
  set (m1 := round_nearest_even (shr_m mrs1) (loc_of_shr_record mrs1)).
  pose proof (round_bounds (shr_m mrs1) (loc_of_shr_record mrs1)) as Hr.
  fold m1 in Hr.
  destruct (renorm_spec m1 e1 ltac:(lia) ltac:(lia)) as (m & Hm & Hdm & He2 & Hv).
  destruct (shr_fexp 24 128 m1 e1 loc_Exact) as [mrs2 e2] eqn:E2.
  cbn [fst snd] in Hm, He2, Hv.
  rewrite Hm.
  assert (Hle : (e2 <=? 128 - 24) = true) by (apply Z.leb_le; lia).
  rewrite Hle.
  exists m, e2. split; [reflexivity|]. split; [assumption|]. split; [lia|].
  exists (shr_m mrs1), e1, (loc_of_shr_record mrs1).
  split; [exact Hl1|]. split; [exact Hm1|]. exact Hv.
Qed.

Lemma inject_Z_succ_le (a b : Z) : a + 1 <= b -> (inject_Z a + 1 <= inject_Z b)%Q.
Proof.
  intros H. change 1%Q with (inject_Z 1).
  rewrite <- inject_Z_plus, <- Zle_Qle. exact H.
Qed.

(** Rounding is monotone. *)
Lemma round_mono (x1 x2 : Q) (m1 m2 e : Z) (l1 l2 : location) :
  located x1 m1 e l1 -> located x2 m2 e l2 -> (x1 <= x2)%Q ->
  round_nearest_even m1 l1 <= round_nearest_even m2 l2.
Proof.
  intros H1 H2 Hx.
  pose proof (pow2_pos e) as Hu.
  pose proof (round_bounds m1 l1) as B1.
  pose proof (round_bounds m2 l2) as B2.
  destruct (Z.lt_trichotomy m1 m2) as [Hlt|[Heq|Hgt]].
  - lia.
  - subst m2.
    destruct l1 as [|[]], l2 as [|[]]; cbn [located round_nearest_even] in *;
      try (destruct (Z.even m1)); try lia; exfalso; lra.
  - exfalso.
    assert (Hm : (inject_Z m2 + 1 <= inject_Z m1)%Q)
      by (apply inject_Z_succ_le; lia).
    assert (Hmu : ((inject_Z m2 + 1) * pow2 e <= inject_Z m1 * pow2 e)%Q)
      by (apply Qmult_le_compat_r; [exact Hm | lra]).
    destruct l1 as [|[]], l2 as [|[]]; cbn [located] in *; lra.
Qed.

Lemma located_bounds (x : Q) (m e : Z) (l : location) :
  located x m e l ->
  (inject_Z m * pow2 e <= x /\ x < (inject_Z m + 1) * pow2 e)%Q.
Proof.
  intros H. pose proof (pow2_pos e) as Hu.
  destruct l as [|[]]; cbn [located] in H; lra.
Qed.

Lemma pow2_le (a b : Z) : a <= b -> (pow2 a <= pow2 b)%Q.
Proof.
  intros H. replace b with (a + (b - a)) by lia. rewrite pow2_add.
  assert (H1 : (1 <= pow2 (b - a))%Q).
  { unfold pow2. change 2%Q with (inject_Z 2).
    rewrite <- Zpower_Qpower by lia.
    change 1%Q with (inject_Z 1). rewrite <- Zle_Qle.
    pose proof (Z.pow_pos_nonneg 2 (b - a) ltac:(lia) ltac:(lia)). lia. }
  pose proof (pow2_pos a). nra.
Qed.

Lemma RN_bounds (x v : Q) :
  RN x v ->
  exists e, (inject_Z (2 ^ 23) * pow2 e <= x /\ x < inject_Z (2 ^ 24) * pow2 e
             /\ inject_Z (2 ^ 23) * pow2 e <= v /\ v <= inject_Z (2 ^ 24) * pow2 e)%Q.
Proof.
  intros (m & e & l & Hl & Hm & Hv). exists e.
  pose proof (pow2_pos e) as Hu.
  pose proof (located_bounds _ _ _ _ Hl) as [Hlo Hhi].
  pose proof (round_bounds m l) as Hr.
  assert (H1 : (inject_Z (2 ^ 23) <= inject_Z m)%Q) by (rewrite <- Zle_Qle; lia).
  assert (H2 : (inject_Z m + 1 <= inject_Z (2 ^ 24))%Q)
    by (apply inject_Z_succ_le; lia).
  assert (H3 : (inject_Z (2 ^ 23) <= inject_Z (round_nearest_even m l))%Q)
    by (rewrite <- Zle_Qle; lia).
  assert (H4 : (inject_Z (round_nearest_even m l) <= inject_Z (2 ^ 24))%Q)
    by (rewrite <- Zle_Qle; lia).
  rewrite Hv. repeat split; nra.
Qed.

Theorem RN_mono (x1 x2 v1 v2 : Q) :
  RN x1 v1 -> RN x2 v2 -> (x1 <= x2)%Q -> (v1 <= v2)%Q.
Proof.
  intros R1 R2 Hx.
  destruct (RN_bounds _ _ R1) as (e1' & _).
  destruct R1 as (m1 & e1 & l1 & Hl1 & Hm1 & Hv1).
  destruct R2 as (m2 & e2 & l2 & Hl2 & Hm2 & Hv2).
  pose proof (pow2_pos e1) as Hu1. pose proof (pow2_pos e2) as Hu2.
  pose proof (located_bounds _ _ _ _ Hl1) as [Hlo1 Hhi1].
  pose proof (located_bounds _ _ _ _ Hl2) as [Hlo2 Hhi2].
  pose proof (round_bounds m1 l1) as Hr1.
  pose proof (round_bounds m2 l2) as Hr2.
  assert (A1 : (inject_Z (2 ^ 23) <= inject_Z m1)%Q) by (rewrite <- Zle_Qle; lia).
  assert (A2 : (inject_Z m2 + 1 <= inject_Z (2 ^ 24))%Q)
    by (apply inject_Z_succ_le; lia).
  assert (A3 : (inject_Z (round_nearest_even m1 l1) <= inject_Z (2 ^ 24))%Q)
    by (rewrite <- Zle_Qle; lia).
  assert (A4 : (inject_Z (2 ^ 23) <= inject_Z (round_nearest_even m2 l2))%Q)
    by (rewrite <- Zle_Qle; lia).
  change (inject_Z (2 ^ 23)) with (8388608 # 1)%Q in *.
  change (inject_Z (2 ^ 24)) with (16777216 # 1)%Q in *.
  rewrite Hv1, Hv2.
  destruct (Z.lt_trichotomy e1 e2) as [Hlt|[Heq|Hgt]].
  - pose proof (pow2_le (e1 + 1) e2 ltac:(lia)) as Hp.
    rewrite pow2_succ in Hp. nra.
  - subst e2.
    assert (Hr : (inject_Z (round_nearest_even m1 l1)
                  <= inject_Z (round_nearest_even m2 l2))%Q).
    { rewrite <- Zle_Qle. eapply round_mono; eassumption. }
    nra.
  - exfalso. pose proof (pow2_le (e2 + 1) e1 ltac:(lia)) as Hp.
    rewrite pow2_succ in Hp. nra.
Qed.

(** *** The operations on finite numbers *)

Lemma iter_xO_val (m d : positive) :
  Zpos (Pos.iter xO m d) = Zpos m * 2 ^ Zpos d.
Proof.
  induction d as [|d IH] using Pos.peano_ind.
  - cbn [Pos.iter]. rewrite (Pos2Z.inj_xO m). change (2 ^ 1) with 2. lia.
  - rewrite Pos.iter_succ, (Pos2Z.inj_xO (Pos.iter xO m d)), IH,
      Pos2Z.inj_succ, Z.pow_succ_r by lia.
    lia.
Qed.

Lemma pow2_nonneg_exp (k : Z) : 0 <= k -> (pow2 k == inject_Z (2 ^ k))%Q.
Proof.
  intros H. unfold pow2. change 2%Q with (inject_Z 2).
  now rewrite Zpower_Qpower.
Qed.

Lemma Fval_pos (m : positive) (e : Z) : (0 < Fval m e)%Q.
Proof.
  unfold Fval. pose proof (pow2_pos e).
  assert ((0 < inject_Z (Zpos m))%Q) by (change 0%Q with (inject_Z 0); rewrite <- Zlt_Qlt; lia).
  nra.
Qed.

Lemma shl_align_spec (mx : positive) (ex ex' : Z) :
  let mz := fst (shl_align mx ex ex') in
  let ez := snd (shl_align mx ex ex') in
  (Fval mz ez == Fval mx ex)%Q
  /\ (ex' < ex -> ez = ex'
                 /\ Zpos (digits2_pos mz) = Zpos (digits2_pos mx) + (ex - ex'))
  /\ (ex <= ex' -> mz = mx /\ ez = ex).
Proof.
  cbv zeta. unfold shl_align.
  destruct (ex' - ex) as [|d|d] eqn:E; cbn [fst snd].
  - split; [reflexivity|]. split; [lia|auto].
  - split; [reflexivity|]. split; [lia|auto].
  - assert (Hex : ex = ex' + Zpos d) by lia.
    split; [|split; [|lia]].
    + unfold Fval. rewrite iter_xO_val, inject_Z_mult, Hex, pow2_add.
      rewrite (pow2_nonneg_exp (Zpos d)) by lia. ring.
    + intros _. split; [reflexivity|].
      apply digits2_unique. rewrite iter_xO_val.
      pose proof (digits2_bounds mx) as [Hlo Hhi].
      set (D := Zpos (digits2_pos mx)) in *.
      assert (HD : 0 < D) by (unfold D; lia).
      replace (D + (ex - ex') - 1) with (D - 1 + Zpos d) by lia.
      replace (D + (ex - ex')) with (D + Zpos d) by lia.
      rewrite !Z.pow_add_r by lia.
      pose proof (Z.pow_pos_nonneg 2 (Zpos d) ltac:(lia) ltac:(lia)).
      nia.
Qed.

(** [binary_round] rounds the value of its mantissa and exponent. *)
Lemma binary_round_spec (sx : bool) (mx : positive) (ex : Z) :
  -149 <= Zpos (digits2_pos mx) + ex - 24 ->
  Zpos (digits2_pos mx) + ex - 23 <= 104 ->
  exists m e,
    binary_round 24 128 sx mx ex = S754_finite sx m e
    /\ Zpos (digits2_pos m) = 24
    /\ (e = Zpos (digits2_pos mx) + ex - 24 \/ e = Zpos (digits2_pos mx) + ex - 23)
    /\ RN (Fval mx ex) (Fval m e).
Proof.
  intros Hlo Hhi. unfold binary_round.
  set (D := Zpos (digits2_pos mx)) in *.
  rewrite fexp_normal by lia.
  destruct (shl_align_spec mx ex (D + ex - 24)) as (Hv & Hshift & Hkeep).
  destruct (shl_align mx ex (D + ex - 24)) as [mz ez] eqn:E.
  cbn [fst snd] in Hv, Hshift, Hkeep.
  assert (Hloc : located (Fval mx ex) (Zpos mz) ez loc_Exact)
    by (cbn [located]; symmetry; exact Hv).
  destruct (Z.lt_ge_cases (D + ex - 24) ex) as [Hlt|Hge].
  - destruct (Hshift Hlt) as [-> Hd]. fold D in Hd.
    destruct (binary_round_aux_spec (Fval mx ex) sx mz (D + ex - 24) loc_Exact
                Hloc ltac:(lia) ltac:(lia) ltac:(lia))
      as (m & e & Hr & Hdm & He & HRN).
    exists m, e. repeat split; try assumption. lia.
  - destruct (Hkeep Hge) as [-> ->]. fold D.
    destruct (binary_round_aux_spec (Fval mx ex) sx mx ex loc_Exact
                Hloc ltac:(fold D; lia) ltac:(fold D; lia) ltac:(fold D; lia))
      as (m & e & Hr & Hdm & He & HRN).
    fold D in He. exists m, e. repeat split; assumption.
Qed.

(** The conversion of a positive integer below [2^127]. *)
Lemma round_int_spec (s : bool) (p : positive) :
  Zpos p < 2 ^ 127 ->
  exists m e,
    binary_round 24 128 s p 0 = S754_finite s m e
    /\ Zpos (digits2_pos m) = 24
    /\ -23 <= e <= Zpos (digits2_pos p) - 23
    /\ RN (inject_Z (Zpos p)) (Fval m e).
Proof.
  intros Hp.
  pose proof (digits2_bounds p) as [Hlo Hhi].
  set (D := Zpos (digits2_pos p)) in *.
  assert (HD : 0 < D <= 127).
  { split; [unfold D; lia|].
    destruct (Z.le_gt_cases D 127); [assumption|].
    assert (2 ^ 127 <= 2 ^ (D - 1)) by (apply Z.pow_le_mono_r; lia). lia. }
  destruct (binary_round_spec s p 0 ltac:(fold D; lia) ltac:(fold D; lia))
    as (m & e & Hr & Hdm & He & HRN).
  fold D in He. exists m, e.
  split; [assumption|]. split; [assumption|]. split; [lia|].
  assert (Hv : (Fval p 0 == inject_Z (Zpos p))%Q).
  { unfold Fval, pow2. change (2 ^ 0)%Q with 1%Q. ring. }
  destruct HRN as (m' & e' & l' & Hl & Hm & Hval).
  exists m', e', l'. split; [|split; assumption].
  destruct l' as [|[]]; cbn [located] in *; rewrite <- ?Hv; assumption.
Qed.

Lemma digits_of_product (mx my : positive) :
  Zpos (digits2_pos mx) = 24 -> Zpos (digits2_pos my) = 24 ->
  Zpos (digits2_pos (mx * my)) = 47 \/ Zpos (digits2_pos (mx * my)) = 48.
Proof.
  intros Hx Hy.
  pose proof (digits2_bounds mx) as Bx. pose proof (digits2_bounds my) as By.
  rewrite Hx in Bx. rewrite Hy in By.
  change (2 ^ (24 - 1)) with 8388608 in *. change (2 ^ 24) with 16777216 in *.
  destruct (Z.lt_ge_cases (Zpos (mx * my)) (2 ^ 47)) as [Hlt|Hge].
  - left. apply digits2_unique. split; [|assumption].
    change (2 ^ (47 - 1)) with (8388608 * 8388608). rewrite Pos2Z.inj_mul. nia.
  - right. apply digits2_unique. split; [assumption|].
    change (2 ^ 48) with (16777216 * 16777216). rewrite Pos2Z.inj_mul. nia.
Qed.

Lemma mul_spec (sx sy : bool) (mx my : positive) (ex ey : Z) :
  Zpos (digits2_pos mx) = 24 -> Zpos (digits2_pos my) = 24 ->
  -149 <= ex + ey + 23 -> ex + ey + 25 <= 104 ->
  exists m e,
    SFmul 24 128 (S754_finite sx mx ex) (S754_finite sy my ey)
    = S754_finite (xorb sx sy) m e
    /\ Zpos (digits2_pos m) = 24
    /\ ex + ey + 23 <= e <= ex + ey + 25
    /\ RN (Fval mx ex * Fval my ey) (Fval m e).
Proof.
  intros Hx Hy Hlo Hhi. cbn [SFmul].
  pose proof (digits_of_product mx my Hx Hy) as HD.
  assert (Hloc : located (Fval mx ex * Fval my ey) (Zpos (mx * my)) (ex + ey) loc_Exact).
  { cbn [located]. unfold Fval.
    rewrite Pos2Z.inj_mul, inject_Z_mult, pow2_add. ring. }
  destruct (binary_round_aux_spec _ (xorb sx sy) (mx * my) (ex + ey) loc_Exact
              Hloc ltac:(lia) ltac:(lia) ltac:(lia))
    as (m & e & Hr & Hdm & He & HRN).
  exists m, e. repeat split; try assumption; lia.
Qed.

(** The position of a quotient from its remainder. *)
Lemma new_location_located (x : Q) (q r my e : Z) :
  0 <= r < my ->
  (x * inject_Z my == (inject_Z q * inject_Z my + inject_Z r) * pow2 e)%Q ->
  located x q e (new_location my r).
Proof.
  intros Hr Hx.
  pose proof (pow2_pos e) as Hu.
  assert (HY : (0 < inject_Z my)%Q)
    by (change 0%Q with (inject_Z 0); rewrite <- Zlt_Qlt; lia).
  assert (HR : (0 <= inject_Z r)%Q)
    by (change 0%Q with (inject_Z 0); rewrite <- Zle_Qle; lia).
  set (X := inject_Z q) in *. set (Y := inject_Z my) in *.
  set (R := inject_Z r) in *. set (W := pow2 e) in *.
  assert (Hcancel : forall a : Q, (x * Y == a * Y -> x == a)%Q).
  { intros a Ha. apply (Qmult_inj_r x a Y); [lra|exact Ha]. }
  assert (Hlt : forall a : Q, (a * Y < x * Y -> a < x)%Q) by (intros a Ha; nra).
  assert (Hgt : forall a : Q, (x * Y < a * Y -> x < a)%Q) by (intros a Ha; nra).
  assert (Hzero : r = 0 -> located x q e loc_Exact).
  { intros Hr0. assert (E : (R == 0)%Q) by (unfold R; rewrite Hr0; reflexivity).
    cbn [located]. fold X W. apply Hcancel. rewrite Hx, E. ring. }
  assert (HRpos : r <> 0 -> (0 < R)%Q).
  { intros Hr0. unfold R. change 0%Q with (inject_Z 0). rewrite <- Zlt_Qlt. lia. }
  assert (HRY : (R < Y)%Q) by (unfold R, Y; rewrite <- Zlt_Qlt; lia).
  assert (Hbelow : 2 * r < my -> (2 * R < Y)%Q).
  { intros Hc. unfold R, Y. change 2%Q with (inject_Z 2).
    rewrite <- inject_Z_mult, <- Zlt_Qlt. exact Hc. }
  assert (Habove : my < 2 * r -> (Y < 2 * R)%Q).
  { intros Hc. unfold R, Y. change 2%Q with (inject_Z 2).
    rewrite <- inject_Z_mult, <- Zlt_Qlt. exact Hc. }
  unfold new_location.
  destruct (Z.even my) eqn:Ev.
  - unfold new_location_even.
    destruct (Z.eqb_spec r 0) as [Hr0|Hr0]; [auto|].
    specialize (HRpos Hr0).
    destruct (Z.compare_spec (2 * r) my) as [Hc|Hc|Hc]; cbn [located]; fold X W.
    + assert (E : (2 * R == Y)%Q).
      { unfold R, Y. rewrite <- Hc, inject_Z_mult. reflexivity. }
      apply Hcancel. rewrite Hx. nra.
    + specialize (Hbelow Hc).
      split; [apply Hlt | apply Hgt]; rewrite Hx; nra.
    + specialize (Habove Hc).
      split; [apply Hlt | apply Hgt]; rewrite Hx; nra.
  - unfold new_location_odd.
    destruct (Z.eqb_spec r 0) as [Hr0|Hr0]; [auto|].
    specialize (HRpos Hr0).
    assert (Hodd : 2 * r <> my).
    { intros E. rewrite <- E, Z.even_mul in Ev. discriminate. }
    destruct (Z.compare_spec (2 * r + 1) my) as [Hc|Hc|Hc]; cbn [located]; fold X W.
    + specialize (Hbelow ltac:(lia)).
      split; [apply Hlt | apply Hgt]; rewrite Hx; nra.
    + specialize (Hbelow ltac:(lia)).
      split; [apply Hlt | apply Hgt]; rewrite Hx; nra.
    + specialize (Habove ltac:(lia)).
      split; [apply Hlt | apply Hgt]; rewrite Hx; nra.
Qed.

Lemma div_spec (sx sy : bool) (mx my : positive) (ex ey : Z) :
  Zpos (digits2_pos mx) = 24 -> Zpos (digits2_pos my) = 24 ->
  -149 <= ex - ey - 24 -> ex - ey - 22 <= 104 ->
  exists m e,
    SFdiv 24 128 (S754_finite sx mx ex) (S754_finite sy my ey)
    = S754_finite (xorb sx sy) m e
    /\ Zpos (digits2_pos m) = 24
    /\ ex - ey - 24 <= e <= ex - ey - 22
    /\ RN (Fval mx ex / Fval my ey) (Fval m e).
Proof.
  intros Hx Hy Hlo Hhi.
  pose proof (digits2_bounds mx) as Bx. pose proof (digits2_bounds my) as By.
  rewrite Hx in Bx. rewrite Hy in By.
  change (2 ^ (24 - 1)) with 8388608 in *. change (2 ^ 24) with 16777216 in *.
  cbn [SFdiv]. unfold SFdiv_core_binary. cbn [Zdigits2]. rewrite Hx, Hy.
  rewrite fexp_normal by lia.
  replace (Z.min (24 + ex - (24 + ey) - 24) (ex - ey)) with (ex - ey - 24) by lia.
  replace (ex - ey - (ex - ey - 24)) with 24 by lia.
  rewrite Z.shiftl_mul_pow2 by lia. change (2 ^ 24) with 16777216.
  pose proof (Z_div_mod (Zpos mx * 16777216) (Zpos my) ltac:(lia)) as Hdm.
  destruct (Z.div_eucl (Zpos mx * 16777216) (Zpos my)) as [q r].
  destruct Hdm as [Heq Hr].
  assert (Hq : 8388608 <= q < 33554432) by nia.
  destruct q as [|pq|pq]; try lia.
  assert (HD : Zpos (digits2_pos pq) = 24 \/ Zpos (digits2_pos pq) = 25).
  { destruct (Z.lt_ge_cases (Zpos pq) 16777216).
    - left. apply digits2_unique.
      change (2 ^ (24 - 1)) with 8388608. change (2 ^ 24) with 16777216. lia.
    - right. apply digits2_unique.
      change (2 ^ (25 - 1)) with 16777216. change (2 ^ 25) with 33554432. lia. }
  assert (Hloc : located (Fval mx ex / Fval my ey) (Zpos pq) (ex - ey - 24)
                   (new_location (Zpos my) r)).
  { apply new_location_located; [lia|].
    assert (HU : (pow2 ex == pow2 (ex - ey - 24) * inject_Z 16777216 * pow2 ey)%Q).
    { replace ex with (ex - ey - 24 + 24 + ey) at 1 by lia.
      rewrite !pow2_add, (pow2_nonneg_exp 24) by lia. reflexivity. }
    assert (HXT : (inject_Z (Zpos mx) * inject_Z 16777216
                   == inject_Z (Zpos pq) * inject_Z (Zpos my) + inject_Z r)%Q).
    { rewrite <- !inject_Z_mult, <- inject_Z_plus, Heq.
      f_equiv. lia. }
    pose proof (pow2_pos ey) as HV.
    assert (HY : (0 < inject_Z (Zpos my))%Q)
      by (change 0%Q with (inject_Z 0); rewrite <- Zlt_Qlt; lia).
    unfold Fval. rewrite HU, <- HXT. field. split; lra. }
  destruct (binary_round_aux_spec _ (xorb sx sy) pq (ex - ey - 24) _
              Hloc ltac:(lia) ltac:(lia) ltac:(lia))
    as (m & e & Hres & Hdm & He & HRN).
  exists m, e. repeat split; try assumption; lia.
Qed.

(** *** Integers and values *)

Lemma to_Q_finite (s : bool) (m : positive) (e : Z) :
  exists q,
    F32.to_Q (S754_finite s m e) = Some q
    /\ (q == if s then - Fval m e else Fval m e)%Q.
Proof.
  unfold F32.to_Q. eexists. split; [reflexivity|].
  assert (H : ((match e with
                | Zneg p => Zpos m # Pos.shiftl 1 (Npos p)
                | _ => inject_Z (Z.shiftl (Zpos m) e)
                end) == Fval m e)%Q).
  { unfold Fval. destruct e as [|pe|pe].
    - unfold pow2. change (2 ^ 0)%Q with 1%Q.
      change (Z.shiftl (Zpos m) 0) with (Zpos m). ring.
    - rewrite Z.shiftl_mul_pow2, inject_Z_mult, pow2_nonneg_exp by lia.
      reflexivity.
    - cbn [Pos.shiftl]. rewrite Qmake_Qdiv, iter_xO_val, Z.mul_1_l.
      change (Zneg pe) with (- Zpos pe). unfold pow2.
      rewrite Qpower_opp. fold (pow2 (Zpos pe)).
      rewrite pow2_nonneg_exp by lia. reflexivity. }
  destruct s; rewrite H; reflexivity.
Qed.

Lemma to_int32_range (z : Z) : - 2 ^ 31 <= to_int32 z < 2 ^ 31.
Proof.
  unfold to_int32. pose proof (Z.mod_pos_bound z (2 ^ 32) ltac:(lia)) as H.
  destruct (Z.ltb_spec (z mod 2 ^ 32) (2 ^ 31)); lia.
Qed.

(** [float(n)] for a non-zero [int]: a number with a 24-bit mantissa
    whose value is [|n|] rounded, with the sign of [n]. *)
Lemma of_int_spec (n : Z) :
  n <> 0 -> - 2 ^ 31 <= n < 2 ^ 31 ->
  exists m e,
    F32.of_int n = S754_finite (n <? 0) m e
    /\ Zpos (digits2_pos m) = 24
    /\ -23 <= e <= 9
    /\ RN (inject_Z (Z.abs n)) (Fval m e).
Proof.
  intros Hn Hr. unfold F32.of_int, F32.prec, F32.emax.
  assert (Hdigits : forall p : positive, Zpos p <= 2 ^ 31 ->
                                         Zpos (digits2_pos p) <= 32).
  { intros p Hp. pose proof (digits2_bounds p) as [Hlo _].
    destruct (Z.le_gt_cases (Zpos (digits2_pos p)) 32); [assumption|].
    assert (2 ^ 32 <= 2 ^ (Zpos (digits2_pos p) - 1))
      by (apply Z.pow_le_mono_r; lia).
    lia. }
  destruct n as [|p|p]; [contradiction| |]; cbn [binary_normalize Z.abs].
  - destruct (round_int_spec false p ltac:(lia)) as (m & e & E & Hd & He & HRN).
    specialize (Hdigits p ltac:(lia)).
    exists m, e. repeat split; try assumption; lia.
  - destruct (round_int_spec true p ltac:(lia)) as (m & e & E & Hd & He & HRN).
    specialize (Hdigits p ltac:(lia)).
    exists m, e. repeat split; try assumption; lia.
Qed.

(** The rounded value of a positive number is positive, and within
    [2^-24] of it in relative terms. *)
Lemma RN_error (x v : Q) :
  RN x v ->
  (0 < x /\ 0 < v
   /\ (1 - (1 # 16777216)) * x <= v /\ v <= (1 + (1 # 16777216)) * x)%Q.
Proof.
  intros (m & e & l & Hl & Hm & Hv).
  pose proof (pow2_pos e) as Hu.
  assert (A1 : (8388608 <= inject_Z m)%Q).
  { change (8388608%Q) with (inject_Z (2 ^ 23)). rewrite <- Zle_Qle. lia. }
  rewrite Hv. clear Hv.
  destruct l as [|[]]; cbn [located round_nearest_even] in *.
  - rewrite Hl. repeat split; nra.
  - assert (A2 : (inject_Z (if Z.even m then m else m + 1) <= inject_Z m + 1)%Q).
    { apply Qle_trans with (inject_Z (m + 1)).
      - rewrite <- Zle_Qle. destruct (Z.even m); lia.
      - rewrite inject_Z_plus. apply Qle_refl. }
    assert (A3 : (inject_Z m <= inject_Z (if Z.even m then m else m + 1))%Q)
      by (rewrite <- Zle_Qle; destruct (Z.even m); lia).
    set (k := inject_Z (if Z.even m then m else m + 1)) in *.
    rewrite Hl. repeat split; nra.
  - repeat split; nra.
  - rewrite inject_Z_plus. change (inject_Z 1) with 1%Q. repeat split; nra.
Qed.

(** ** The estimator *)

Lemma reference_value : reference = S754_finite false 10001305 0.
Proof. vm_compute. reflexivity. Qed.

Lemma to_int32_small (z : Z) : 0 <= z < 2 ^ 31 -> to_int32 z = z.
Proof.
  intros H. unfold to_int32. rewrite Z.mod_small by lia.
  destruct (Z.ltb_spec z (2 ^ 31)); lia.
Qed.

(** Below [2^31] the two integers of [loop] are the totals. *)
Lemma n_ref_small (r : Reading.t) : 0 <= total0 r < 2 ^ 31 -> n_ref r = total0 r.
Proof. apply to_int32_small. Qed.

Lemma n_sig_small (r : Reading.t) : 0 <= total1 r < 2 ^ 31 -> n_sig r = total1 r.
Proof. apply to_int32_small. Qed.

Lemma published_frequency (r : Reading.t) :
  published r = if F32.to_bool (frequency_of r) then Some (frequency_of r) else None.
Proof.
  unfold published, loop_counter. simpl.
  destruct (F32.to_bool (frequency_of r)); reflexivity.
Qed.

Lemma RN_ext (x x' v v' : Q) :
  (x == x')%Q -> (v == v')%Q -> RN x v -> RN x' v'.
Proof.
  intros Hx Hv (m & e & l & Hl & Hm & Hval).
  exists m, e, l. split; [|split; [assumption|now rewrite <- Hv]].
  destruct l as [|[]]; cbn [located] in *; rewrite <- ?Hx; assumption.
Qed.

Lemma RN_unique (x v v' : Q) : RN x v -> RN x v' -> (v == v')%Q.
Proof.
  intros H H'. apply Qle_antisym.
  - apply (RN_mono x x); [assumption|assumption|apply Qle_refl].
  - apply (RN_mono x x); [assumption|assumption|apply Qle_refl].
Qed.

(** The frequency of a reading whose two integers are not zero: a finite
    number, not zero, with the sign of the quotient and the magnitude
    given by [rounded_frequency]. *)
Lemma frequency_spec (r : Reading.t) :
  n_sig r <> 0 -> n_ref r <> 0 ->
  exists m e,
    frequency_of r = S754_finite (xorb (n_sig r <? 0) (n_ref r <? 0)) m e
    /\ Zpos (digits2_pos m) = 24
    /\ rounded_frequency (Z.abs (n_sig r)) (Z.abs (n_ref r)) (Fval m e).
Proof.
  intros Hs Hr. unfold frequency_of.
  destruct (of_int_spec (n_sig r) Hs (to_int32_range _))
    as (mx & ex & Ex & Hdx & Hex & HX).
  destruct (of_int_spec (n_ref r) Hr (to_int32_range _))
    as (my & ey & Ey & Hdy & Hey & HY).
  rewrite Ex, Ey, reference_value.
  unfold F32.div, F32.mul, F32.prec, F32.emax.
  destruct (div_spec (n_sig r <? 0) (n_ref r <? 0) mx my ex ey Hdx Hdy
              ltac:(lia) ltac:(lia))
    as (mq & eq & Eq & Hdq & Heq & HQ).
  rewrite Eq.
  destruct (mul_spec (xorb (n_sig r <? 0) (n_ref r <? 0)) false mq 10001305 eq 0
              Hdq eq_refl ltac:(lia) ltac:(lia))
    as (m & e & Em & Hdm & Hem & HM).
  rewrite Em, xorb_false_r.
  exists m, e. split; [reflexivity|]. split; [assumption|].
  exists (Fval mx ex), (Fval my ey), (Fval mq eq).
  split; [exact HX|]. split; [exact HY|]. split; [exact HQ|]. exact HM.
Qed.

Lemma rounded_frequency_mono (a1 a2 b : Z) (v1 v2 : Q) :
  a1 <= a2 ->
  rounded_frequency a1 b v1 -> rounded_frequency a2 b v2 -> (v1 <= v2)%Q.
Proof.
  intros Ha (X1 & Y1 & T1 & HX1 & HY1 & HT1 & Hv1)
            (X2 & Y2 & T2 & HX2 & HY2 & HT2 & Hv2).
  assert (HX : (X1 <= X2)%Q)
    by (apply (RN_mono _ _ _ _ HX1 HX2); rewrite <- Zle_Qle; exact Ha).
  pose proof (RN_unique _ _ _ HY1 HY2) as HY.
  destruct (RN_error _ _ HY1) as (_ & HY1pos & _).
  destruct (RN_error _ _ HT1) as (_ & HT1pos & _).
  assert (HT : (T1 <= T2)%Q).
  { apply (RN_mono _ _ _ _ HT1 HT2). rewrite <- HY.
    unfold Qdiv. apply Qmult_le_compat_r; [exact HX|].
    apply Qlt_le_weak, Qinv_lt_0_compat, HY1pos. }
  apply (RN_mono _ _ _ _ Hv1 Hv2). nra.
Qed.

(** The rounded frequency is within [2^-21] of the exact one, in
    relative terms. *)
Lemma rounded_frequency_accuracy (a b : Z) (v : Q) :
  rounded_frequency a b v ->
  let exact := (inject_Z a / inject_Z b * 10001305)%Q in
  (0 < exact /\ (1 - (1 # 2097152)) * exact <= v
   /\ v <= (1 + (1 # 2097152)) * exact)%Q.
Proof.
  intros (X & Y & T & HX & HY & HT & Hv). cbv zeta.
  destruct (RN_error _ _ HX) as (HA & HXpos & HXlo & HXhi).
  destruct (RN_error _ _ HY) as (HB & HYpos & HYlo & HYhi).
  destruct (RN_error _ _ HT) as (_ & HTpos & HTlo & HThi).
  destruct (RN_error _ _ Hv) as (_ & Hvpos & Hvlo & Hvhi).
  set (A := inject_Z a) in *. set (B := inject_Z b) in *.
  set (u := (1 # 16777216)%Q) in *.
  assert (Hu : (u == 1 # 16777216)%Q) by reflexivity. clearbody u.
  assert (HXY : (X / Y * Y == X)%Q) by (field; lra).
  assert (HAB : (A / B * B == A)%Q) by (field; lra).
  set (q := (X / Y)%Q) in *. set (E := (A / B)%Q) in *.
  assert (Hq : (0 < q)%Q) by (unfold q, Qdiv; pose proof (Qinv_lt_0_compat Y HYpos); nra).
  assert (HE : (0 < E)%Q) by (unfold E, Qdiv; pose proof (Qinv_lt_0_compat B HB); nra).
  clearbody q E.
  (* the quotient of the two conversions against the exact quotient *)
  assert (Hq_hi : ((1 - u) * q <= (1 + u) * E)%Q).
  { assert (H1 : ((1 - u) * q * B <= q * Y)%Q) by nra.
    assert (H2 : (q * Y <= (1 + u) * (E * B))%Q) by (rewrite HXY, HAB; exact HXhi).
    assert (H3 : ((1 - u) * q * B <= (1 + u) * E * B)%Q) by lra.
    nra. }
  assert (Hq_lo : ((1 - u) * E <= (1 + u) * q)%Q).
  { assert (H1 : (q * Y <= (1 + u) * q * B)%Q) by nra.
    assert (H2 : ((1 - u) * (E * B) <= q * Y)%Q) by (rewrite HXY, HAB; exact HXlo).
    assert (H3 : ((1 - u) * E * B <= (1 + u) * q * B)%Q) by lra.
    nra. }
  (* the two remaining roundings *)
  assert (Hv_hi : (v <= (1 + u) * (1 + u) * q * 10001305)%Q) by nra.
  assert (Hv_lo : ((1 - u) * (1 - u) * q * 10001305 <= v)%Q) by nra.
  split; [nra|]. split.
  - assert (H1 : ((1 - u) * (1 - u) * ((1 - u) * E) * 10001305
                  <= (1 + u) * v)%Q) by nra.
    rewrite Hu in *. nra.
  - assert (H1 : ((1 - u) * v
                  <= (1 + u) * (1 + u) * ((1 + u) * E) * 10001305)%Q) by nra.
    rewrite Hu in *. nra.
Qed.

Lemma div_by_zero (x : F32.float) :
  F32.div x (S754_zero false) = S754_nan
  \/ exists s, F32.div x (S754_zero false) = S754_infinity s.
Proof. destruct x; simpl; eauto. Qed.

Lemma frequency_zero (r : Reading.t) :
  n_sig r = 0 -> n_ref r <> 0 -> exists s, frequency_of r = S754_zero s.
Proof.
  intros Hs Hr. unfold frequency_of. rewrite Hs.
  destruct (of_int_spec (n_ref r) Hr (to_int32_range _)) as (my & ey & Ey & _).
  rewrite Ey, reference_value. eexists. reflexivity.
Qed.

(** What [loop] publishes, by cases on the two integers: nothing when
    there is no signal pulse and the reference count is not zero, a
    finite non-zero number when neither is zero, a NaN or an infinity
    when the reference count is zero. *)
Lemma published_cases (r : Reading.t) :
  published r = None <-> n_sig r = 0 /\ n_ref r <> 0.
Proof.
  rewrite published_frequency.
  destruct (Z.eq_dec (n_ref r) 0) as [Hr|Hr].
  - assert (Hf : frequency_of r
                 = F32.mul (F32.div (F32.of_int (n_sig r)) (S754_zero false))
                     reference)
      by (unfold frequency_of; rewrite Hr; reflexivity).
    rewrite Hf, reference_value.
    destruct (div_by_zero (F32.of_int (n_sig r))) as [E|[s E]]; rewrite E;
      cbn; split; [discriminate|tauto|discriminate|tauto].
  - destruct (Z.eq_dec (n_sig r) 0) as [Hs|Hs].
    + destruct (frequency_zero r Hs Hr) as [s E]. rewrite E. cbn. tauto.
    + destruct (frequency_spec r Hs Hr) as (m & e & E & _). rewrite E. cbn.
      split; [discriminate|tauto].
Qed.

(** Below [2^31] the code follows the formula: the frequency of a
    reading with two positive totals is published, it is the quotient
    of the totals times 10001305 computed with four roundings to 24
    bits, and it lies within [2^-21] of the exact value, in relative
    terms. *)
Lemma frequency_in_range (r : Reading.t) :
  0 < total0 r < 2 ^ 31 -> 0 < total1 r < 2 ^ 31 ->
  exists v,
    published r = Some (frequency_of r)
    /\ F32.to_Q (frequency_of r) = Some v
    /\ rounded_frequency (total1 r) (total0 r) v
    /\ (let exact := (inject_Z (total1 r) / inject_Z (total0 r) * 10001305)%Q in
        (1 - (1 # 2097152)) * exact <= v /\ v <= (1 + (1 # 2097152)) * exact)%Q.
Proof.
  intros H0 H1.
  pose proof (n_ref_small r ltac:(lia)) as Er.
  pose proof (n_sig_small r ltac:(lia)) as Es.
  destruct (frequency_spec r ltac:(lia) ltac:(lia)) as (m & e & E & _ & Hv).
  rewrite Er, Es in Hv.
  rewrite !Z.abs_eq in Hv by lia.
  assert (Hsign : xorb (n_sig r <? 0) (n_ref r <? 0) = false).
  { rewrite Er, Es.
    destruct (Z.ltb_spec (total1 r) 0); destruct (Z.ltb_spec (total0 r) 0);
      try lia; reflexivity. }
  rewrite Hsign in E.
  destruct (to_Q_finite false m e) as (q & Eq & Hq).
  exists q. rewrite published_frequency, E.
  split; [reflexivity|]. split; [exact Eq|].
  assert (Hv' : rounded_frequency (total1 r) (total0 r) q).
  { destruct Hv as (X & Y & T & HX & HY & HT & HM).
    exists X, Y, T. repeat split; try assumption.
    apply (RN_ext _ _ _ _ (Qeq_refl _) (Qeq_sym _ _ Hq) HM). }
  split; [exact Hv'|].
  destruct (rounded_frequency_accuracy _ _ _ Hv') as (_ & Hlo & Hhi).
  split; assumption.
Qed.

(** Below [2^31], with the reference total fixed, the frequency does
    not decrease when the signal total grows. *)
Lemma frequency_monotone (r1 r2 : Reading.t) :
  total0 r1 = total0 r2 -> 0 < total0 r1 < 2 ^ 31 ->
  0 <= total1 r1 -> total1 r1 <= total1 r2 -> total1 r2 < 2 ^ 31 ->
  exists v1 v2,
    F32.to_Q (frequency_of r1) = Some v1
    /\ F32.to_Q (frequency_of r2) = Some v2
    /\ (v1 <= v2)%Q.
Proof.
  intros H0 Hr Hs1 Hle Hs2.
  assert (Hzero : forall r, total1 r = 0 -> 0 < total0 r < 2 ^ 31 ->
                            F32.to_Q (frequency_of r) = Some 0%Q).
  { intros r Ht1 Ht0.
    destruct (frequency_zero r) as [s E].
    - rewrite n_sig_small by lia. exact Ht1.
    - rewrite n_ref_small by lia. lia.
    - rewrite E. reflexivity. }
  destruct (Z.eq_dec (total1 r2) 0) as [Z2|N2].
  - exists 0%Q, 0%Q. rewrite !Hzero by lia. repeat split. apply Qle_refl.
  - destruct (frequency_in_range r2 ltac:(lia) ltac:(lia))
      as (v2 & _ & E2 & Hv2 & _).
    destruct (Z.eq_dec (total1 r1) 0) as [Z1|N1].
    + exists 0%Q, v2. rewrite Hzero by lia. repeat split; [exact E2|].
      destruct Hv2 as (X & Y & T & _ & _ & _ & HM).
      destruct (RN_error _ _ HM) as (_ & Hpos & _). lra.
    + destruct (frequency_in_range r1 ltac:(lia) ltac:(lia))
        as (v1 & _ & E1 & Hv1 & _).
      exists v1, v2. repeat split; try assumption.
      rewrite <- H0 in Hv2.
      exact (rounded_frequency_mono _ _ _ _ _ Hle Hv1 Hv2).
Qed.

(** C1 (the total of a long window does not fit [int]): a reading with a
    reference tally of 107375 and five signal pulses has
    [refTotal = 2147500000 > 0], but [n_ref] is negative and so is the
    published frequency, where the formula gives about 0.0233 Hz.
    As long as both totals stay below [2^31] the code does follow the
    formula, in single precision, and the frequency grows with the
    signal total. *)
Theorem n_ref_wraps_beyond_int :
  (let r := Reading.mk 0 107375 5 0 in
   total0 r = 2147500000 /\ total1 r = 5
   /\ n_ref r = -2147467296 /\ n_sig r = 5
   /\ published r = Some (S754_finite true 12501727 (-29))
   /\ F32.to_Q (S754_finite true 12501727 (-29)) = Some (-12501727 # 536870912)%Q)
  /\ (forall r,
        0 < total0 r < 2 ^ 31 -> 0 < total1 r < 2 ^ 31 ->
        exists v,
          published r = Some (frequency_of r)
          /\ F32.to_Q (frequency_of r) = Some v
          /\ rounded_frequency (total1 r) (total0 r) v
          /\ (let exact := (inject_Z (total1 r) / inject_Z (total0 r)
                            * 10001305)%Q in
              (1 - (1 # 2097152)) * exact <= v
              /\ v <= (1 + (1 # 2097152)) * exact)%Q)
  /\ (forall r1 r2,
        total0 r1 = total0 r2 -> 0 < total0 r1 < 2 ^ 31 ->
        0 <= total1 r1 -> total1 r1 <= total1 r2 -> total1 r2 < 2 ^ 31 ->
        exists v1 v2,
          F32.to_Q (frequency_of r1) = Some v1
          /\ F32.to_Q (frequency_of r2) = Some v2
          /\ (v1 <= v2)%Q).
Proof.
  split; [vm_compute; repeat split|].
  split; [exact frequency_in_range | exact frequency_monotone].
Qed.

(** C2, as stated, fails: a reading with no pulse at all is published,
    as a NaN. *)
Lemma empty_reading_is_published :
  let r := Reading.mk 0 0 0 0 in
  total0 r = 0 /\ published r = Some S754_nan /\ published r <> None.
Proof. vm_compute. repeat split. discriminate. Qed.

(** C2, amended: when the reading has [refTotal = 0] the division is
    carried out all the same, in single precision, where it does not
    trap: the frequency is a NaN when there is no signal pulse either,
    and an infinity with the sign of [n_sig] otherwise.  It is not zero,
    so the test [if (frequency)] lets it through: the first display line
    and the log line are written with it, the number of digits being the
    conversion to [int] of a value that is not finite.  The readings
    that are skipped are those with no signal pulse and a reference
    count that is not zero, whose frequency is zero. *)
Theorem zero_reference_is_published (r : Reading.t) :
  total0 r = 0 ->
  (n_sig r = 0 -> frequency_of r = S754_nan)
  /\ (n_sig r <> 0 -> frequency_of r = S754_infinity (n_sig r <? 0))
  /\ published r = Some (frequency_of r)
  /\ (forall c, reading c = r -> ready c = true ->
      exists rep,
        snd (loop_counter c) = Some rep
        /\ log_frequency rep = frequency_of r
        /\ display_value (display_line1 rep) = frequency_of r
        /\ log_precision rep = None)
  /\ (forall r', published r' = None <-> n_sig r' = 0 /\ n_ref r' <> 0).
Proof.
  intros H0.
  assert (Hf : frequency_of r
               = F32.mul (F32.div (F32.of_int (n_sig r)) (S754_zero false)) reference)
    by (unfold frequency_of, n_ref; rewrite H0; reflexivity).
  assert (Hnan : n_sig r = 0 -> frequency_of r = S754_nan)
    by (intros H1; rewrite Hf, H1; reflexivity).
  assert (Hinf : n_sig r <> 0 -> frequency_of r = S754_infinity (n_sig r <? 0)).
  { intros H1.
    destruct (of_int_spec (n_sig r) H1 (to_int32_range _)) as (m & e & E & _).
    rewrite Hf, E, reference_value. cbn. now rewrite !xorb_false_r. }
  assert (Hcases : frequency_of r = S754_nan
                   \/ exists s, frequency_of r = S754_infinity s).
  { destruct (Z.eq_dec (n_sig r) 0) as [E|E]; [left|right; eexists]; eauto. }
  split; [exact Hnan|]. split; [exact Hinf|]. split; [|split].
  - rewrite published_frequency.
    destruct Hcases as [E|[s E]]; rewrite E; reflexivity.
  - intros c Hr Hready. unfold loop_counter. rewrite Hready, Hr.
    destruct Hcases as [E|[s E]]; rewrite E; simpl.
    + eexists. split; [reflexivity|]. repeat split.
    + eexists. split; [reflexivity|]. destruct s; repeat split.
  - exact published_cases.
Qed.

Lemma zero_reference_is_published_witness :
  let r := Reading.mk 0 0 7 0 in
  total0 r = 0 /\ published r = Some (S754_infinity false).
Proof.
  split; [reflexivity|].
  destruct (zero_reference_is_published (Reading.mk 0 0 7 0) eq_refl)
    as (_ & _ & E & _).
  rewrite E. reflexivity.
Defined.

(** ** Digits after the point *)

Lemma pow10_pos (k : Z) : 0 <= k -> 0 < 10 ^ k.
Proof. intros H. apply Z.pow_pos_nonneg; lia. Qed.

Lemma pow10_succ (k : Z) : 0 <= k -> 10 ^ (k + 1) = 10 * 10 ^ k.
Proof. intros H. rewrite Z.pow_add_r by lia. lia. Qed.

Lemma pow10_pred (k : Z) : 1 <= k -> 10 ^ k = 10 * 10 ^ (k - 1).
Proof.
  intros H. replace k with (k - 1 + 1) at 1 by lia. apply pow10_succ. lia.
Qed.

Lemma ilog10_fuel_spec (fuel : nat) :
  forall z, 1 <= z < 10 ^ Z.of_nat fuel ->
            0 <= ilog10_fuel fuel z
            /\ 10 ^ ilog10_fuel fuel z <= z < 10 ^ (ilog10_fuel fuel z + 1).
Proof.
  induction fuel as [|fuel IH]; intros z Hz.
  - simpl in Hz. lia.
  - cbn [ilog10_fuel]. destruct (Z.ltb_spec z 10) as [Hlt|Hge].
    + simpl. lia.
    + assert (Hq : 1 <= z / 10 < 10 ^ Z.of_nat fuel).
      { rewrite Nat2Z.inj_succ, <- Z.add_1_r, pow10_succ in Hz by lia.
        split; [apply Z.div_le_lower_bound; lia|].
        apply Z.div_lt_upper_bound; lia. }
      destruct (IH _ Hq) as (Hk & Hlo & Hhi).
      set (k := ilog10_fuel fuel (z / 10)) in *.
      pose proof (Z.div_mod z 10 ltac:(lia)) as Hdm.
      pose proof (Z.mod_pos_bound z 10 ltac:(lia)) as Hm.
      replace (1 + k) with (k + 1) by lia.
      rewrite (pow10_succ (k + 1)), (pow10_succ k) in * by lia.
      lia.
Qed.

Lemma ilog10_spec (z : Z) :
  1 <= z -> 0 <= ilog10 z /\ 10 ^ ilog10 z <= z < 10 ^ (ilog10 z + 1).
Proof.
  intros Hz. unfold ilog10. apply ilog10_fuel_spec. split; [assumption|].
  destruct (Z.log2_spec z ltac:(lia)) as [_ Hlt].
  pose proof (Z.log2_nonneg z) as Hl.
  rewrite Nat2Z.inj_succ, Z2Nat.id by assumption.
  apply Z.lt_le_trans with (2 ^ Z.succ (Z.log2 z)); [assumption|].
  apply Z.pow_le_mono_l. lia.
Qed.


(** Bounds of a quotient, without division. *)
Lemma div_bounds (a b lo hi : Z) :
  0 < b -> lo <= a / b < hi -> lo * b <= a < hi * b.
Proof.
  intros Hb [Hlo Hhi].
  pose proof (Z.div_mod a b ltac:(lia)) as Hdm.
  pose proof (Z.mod_pos_bound a b Hb) as Hm.
  nia.
Qed.

Lemma floor_log10_spec (f : Q) : 0 < Qnum f -> is_floor_log10 f (floor_log10 f).
Proof.
  intros Hn. unfold is_floor_log10, floor_log10.
  set (n := Qnum f) in *. set (d := Zpos (Qden f)).
  assert (Hd : 0 < d) by (unfold d; lia).
  destruct (Z.leb_spec d n) as [Hle|Hlt].
  - assert (Hq : 1 <= n / d) by (apply Z.div_le_lower_bound; lia).
    destruct (ilog10_spec _ Hq) as (Hk & Hb).
    apply div_bounds in Hb; [|assumption].
    destruct (Z.leb_spec 0 (ilog10 (n / d))); lia.
  - assert (Hq : 1 <= d / n) by (apply Z.div_le_lower_bound; lia).
    destruct (ilog10_spec _ Hq) as (Hk & Hb).
    apply div_bounds in Hb; [|assumption].
    set (k := ilog10 (d / n)) in *.
    rewrite pow10_succ in Hb by assumption.
    destruct (Z.eqb_spec (n * 10 ^ k) d) as [E|E].
    + assert (Hk1 : 1 <= k).
      { destruct (Z.eq_dec k 0) as [Hz|]; [|lia].
        rewrite Hz in E. simpl in E. lia. }
      destruct (Z.leb_spec 0 (- k)); [lia|].
      replace (- - k - 1) with (k - 1) by lia.
      replace (- - k) with k by lia.
      pose proof (pow10_pred k Hk1) as Hp.
      pose proof (pow10_pos (k - 1) ltac:(lia)). nia.
    + destruct (Z.leb_spec 0 (- (k + 1))); [lia|].
      replace (- - (k + 1) - 1) with k by lia.
      replace (- - (k + 1)) with (k + 1) by lia.
      rewrite pow10_succ by assumption. lia.
Qed.






(** ** The measurement cycle *)

(** The limit events of a window are bounded by its pulses. *)
Lemma limit_events_le (c : counters_t) (ps : list pulse) (u : pulse) :
  window_start c = true ->
  0 <= limit_events u ps c
  /\ limit_events u ps c * PCNT_H_LIM_VAL <= pulses_of u ps.
Proof.
  intros Hs.
  destruct (snapshot_spec c ps Hs)
    as (H0 & H1 & _ & _ & HpR & HpS & _).
  cbv zeta in *.
  split; [apply limit_events_nonneg|].
  destruct u; lia.
Qed.

Lemma reading_decoded (c : counters_t) (ps : list pulse) :
  window_start c = true ->
  reading (isr (count_pulses ps c))
  = Reading.mk (pulses_of Ref ps mod PCNT_H_LIM_VAL)
               (to_uint32 (pulses_of Ref ps / PCNT_H_LIM_VAL))
               (pulses_of Sig ps mod PCNT_H_LIM_VAL)
               (to_uint32 (pulses_of Sig ps / PCNT_H_LIM_VAL)).
Proof.
  intros Hs.
  destruct (snapshot_spec c ps Hs)
    as (H0 & H1 & Hn0 & Hn1 & HpR & HpS & _).
  cbv zeta in *.
  destruct (reading (isr (count_pulses ps c))) as [c0 n0 c1 n1].
  cbn [Reading.count0 Reading.count1 Reading.noverflow0 Reading.noverflow1] in *.
  assert (HL : 0 < PCNT_H_LIM_VAL) by (unfold PCNT_H_LIM_VAL; lia).
  assert (Q0 : pulses_of Ref ps / PCNT_H_LIM_VAL = limit_events Ref ps c)
    by (symmetry; apply Z.div_unique with c0; lia).
  assert (R0 : pulses_of Ref ps mod PCNT_H_LIM_VAL = c0)
    by (symmetry; apply Z.mod_unique with (limit_events Ref ps c); lia).
  assert (Q1 : pulses_of Sig ps / PCNT_H_LIM_VAL = limit_events Sig ps c)
    by (symmetry; apply Z.div_unique with c1; lia).
  assert (R1 : pulses_of Sig ps mod PCNT_H_LIM_VAL = c1)
    by (symmetry; apply Z.mod_unique with (limit_events Sig ps c); lia).
  rewrite Q0, R0, Q1, R1, Hn0, Hn1. reflexivity.
Qed.

(** X2: the reading taken when the gate closes is the quotient and the
    remainder of the window's pulse counts by 20000: [count] is the
    number of pulses modulo 20000 and [noverflow] the quotient (kept in
    a [uint32_t]).  It depends on how many pulses each counter saw, not
    on the order in which reference and signal pulses arrived, nor on
    the window before. *)
Theorem reading_is_quotient_and_remainder (c : counters_t) (ps : list pulse) :
  window_start c = true ->
  let r := reading (isr (count_pulses ps c)) in
  r = Reading.mk (pulses_of Ref ps mod PCNT_H_LIM_VAL)
                 (to_uint32 (pulses_of Ref ps / PCNT_H_LIM_VAL))
                 (pulses_of Sig ps mod PCNT_H_LIM_VAL)
                 (to_uint32 (pulses_of Sig ps / PCNT_H_LIM_VAL))
  /\ (pulses_of Ref ps < PCNT_H_LIM_VAL * 2 ^ 32 ->
      Reading.noverflow0 r = pulses_of Ref ps / PCNT_H_LIM_VAL)
  /\ (pulses_of Sig ps < PCNT_H_LIM_VAL * 2 ^ 32 ->
      Reading.noverflow1 r = pulses_of Sig ps / PCNT_H_LIM_VAL)
  /\ (forall c' ps',
        window_start c' = true ->
        pulses_of Ref ps' = pulses_of Ref ps ->
        pulses_of Sig ps' = pulses_of Sig ps ->
        reading (isr (count_pulses ps' c')) = r).
Proof.
  intros Hs r. unfold r.
  rewrite (reading_decoded c ps Hs).
  cbn [Reading.noverflow0 Reading.noverflow1].
  assert (HL : 0 < PCNT_H_LIM_VAL) by (unfold PCNT_H_LIM_VAL; lia).
  assert (HR : 0 <= pulses_of Ref ps)
    by (destruct (limit_events_le c ps Ref Hs); nia).
  assert (HS : 0 <= pulses_of Sig ps)
    by (destruct (limit_events_le c ps Sig Hs); nia).
  split; [reflexivity|]. split; [|split].
  - intros Hlt. apply to_uint32_small. split.
    + apply Z.div_pos; lia.
    + apply Z.div_lt_upper_bound; lia.
  - intros Hlt. apply to_uint32_small. split.
    + apply Z.div_pos; lia.
    + apply Z.div_lt_upper_bound; lia.
  - intros c' ps' Hs' ER ES.
    rewrite (reading_decoded c' ps' Hs'), ER, ES. reflexivity.
Qed.

Lemma reading_is_quotient_and_remainder_witness :
  reading (isr (count_pulses [Sig; Ref; Ref] boot_counters))
  = reading (isr (count_pulses [Ref; Sig; Ref] boot_counters)).
Proof.
  destruct (reading_is_quotient_and_remainder boot_counters [Ref; Sig; Ref] eq_refl)
    as (_ & _ & _ & H).
  apply (H boot_counters [Sig; Ref; Ref]); reflexivity.
Defined.

Lemma loop_counter_ready (c : counters_t) :
  ready c = true ->
  loop_counter c
  = (mkCounters (unit0 c) (unit1 c) (noverflow0 c) (noverflow1 c) (reading c) false,
     option_map (fun f => mkReport (create_display_string f) f (precision_of f))
                (published (reading c))).
Proof.
  intros Hr. rewrite published_frequency. unfold loop_counter. rewrite Hr.
  destruct (F32.to_bool (frequency_of (reading c))); reflexivity.
Qed.

(** The frequency computed from two totals that are not zero is a
    normal single-precision number. *)
Lemma frequency_valid (r : Reading.t) :
  n_sig r <> 0 -> n_ref r <> 0 ->
  valid_binary F32.prec F32.emax (frequency_of r) = true.
Proof.
  intros Hs Hr. unfold frequency_of.
  destruct (of_int_spec (n_sig r) Hs (to_int32_range _))
    as (mx & ex & Ex & Hdx & Hex & _).
  destruct (of_int_spec (n_ref r) Hr (to_int32_range _))
    as (my & ey & Ey & Hdy & Hey & _).
  rewrite Ex, Ey, reference_value.
  unfold F32.div, F32.mul, F32.prec, F32.emax.
  destruct (div_spec (n_sig r <? 0) (n_ref r <? 0) mx my ex ey Hdx Hdy
              ltac:(lia) ltac:(lia))
    as (mq & eq & Eq & Hdq & Heq & _).
  rewrite Eq.
  destruct (mul_spec (xorb (n_sig r <? 0) (n_ref r <? 0)) false mq 10001305 eq 0
              Hdq eq_refl ltac:(lia) ltac:(lia))
    as (m & e & Em & Hdm & Hem & _).
  rewrite Em.
  unfold valid_binary, bounded, canonical_mantissa, fexp, emin.
  rewrite Hdm. apply andb_true_iff. split; [apply Z.eqb_eq | apply Z.leb_le]; lia.
Qed.

(** X1: a whole measurement, from the pulses to the published value.
    A window that counts [R] reference pulses and [S] signal pulses,
    both positive and below [2^31], makes the next iteration of [loop]
    publish a frequency: a normal single-precision number, the formula
    [S / R * reference] evaluated in single precision, within a relative
    [2^-21] of the exact value; the display line is formatted from the
    same number and [ready] is cleared. *)
Theorem window_publishes_its_frequency (c : counters_t) (ps : list pulse) :
  window_start c = true ->
  0 < pulses_of Ref ps < 2 ^ 31 ->
  0 < pulses_of Sig ps < 2 ^ 31 ->
  exists rep v,
    snd (loop_counter (isr (count_pulses ps c))) = Some rep
    /\ ready (fst (loop_counter (isr (count_pulses ps c)))) = false
    /\ display_line1 rep = create_display_string (log_frequency rep)
    /\ log_precision rep = precision_of (log_frequency rep)
    /\ valid_binary F32.prec F32.emax (log_frequency rep) = true
    /\ F32.to_Q (log_frequency rep) = Some v
    /\ rounded_frequency (pulses_of Sig ps) (pulses_of Ref ps) v
    /\ (let exact := (inject_Z (pulses_of Sig ps) / inject_Z (pulses_of Ref ps)
                      * 10001305)%Q in
        (1 - (1 # 2097152)) * exact <= v /\ v <= (1 + (1 # 2097152)) * exact)%Q.
Proof.
  intros Hs HR HS.
  destruct (snapshot_spec c ps Hs)
    as (H0 & H1 & _ & _ & HpR & HpS & HtR & HtS & Hready & _).
  cbv zeta in *.
  pose proof (limit_events_nonneg Ref ps c) as HeR.
  pose proof (limit_events_nonneg Sig ps c) as HeS.
  assert (HL : PCNT_H_LIM_VAL = 20000) by reflexivity.
  specialize (HtR ltac:(lia)). specialize (HtS ltac:(lia)).
  set (c' := isr (count_pulses ps c)) in *.
  destruct (frequency_in_range (reading c')) as (v & Hpub & Hq & Hrf & Hacc);
    [lia | lia |].
  assert (Hval : valid_binary F32.prec F32.emax (frequency_of (reading c')) = true).
  { apply frequency_valid.
    - rewrite n_sig_small by lia. lia.
    - rewrite n_ref_small by lia. lia. }
  rewrite HtR, HtS in Hrf, Hacc.
  rewrite (loop_counter_ready c' Hready), Hpub.
  eexists. exists v. cbn [snd fst option_map ready display_line1 log_frequency
                          log_precision].
  repeat (split; [reflexivity|]).
  split; [exact Hval|].
  split; [exact Hq|]. split; [exact Hrf | exact Hacc].
Qed.

Lemma window_publishes_its_frequency_witness :
  exists rep,
    snd (loop_counter (isr (count_pulses [Ref; Sig; Ref] boot_counters))) = Some rep
    /\ F32.to_Q (log_frequency rep) = Some (10001305 # 2)%Q.
Proof.
  destruct (window_publishes_its_frequency boot_counters [Ref; Sig; Ref] eq_refl)
    as (rep & v & E & _); [simpl; lia | simpl; lia |].
  exists rep. split; [exact E|].
  vm_compute in E. injection E as <-. vm_compute. reflexivity.
Defined.

(** Counting does not look at [reading] or [ready]. *)
Lemma count_pulse_frame (p : pulse) (c : counters_t) (r : Reading.t) (b : bool) :
  count_pulse p (mkCounters (unit0 c) (unit1 c) (noverflow0 c) (noverflow1 c) r b)
  = let c' := count_pulse p c in
    mkCounters (unit0 c') (unit1 c') (noverflow0 c') (noverflow1 c') r b.
Proof.
  destruct c as [[c0 i0 l0] [c1 i1 l1] n0 n1 rd rdy].
  unfold count_pulse, pcnt_intr_handler, handle_unit0, handle_unit1, pcnt_pulse.
  cbn [unit0 unit1 cnt int_st h_lim_lat noverflow0 noverflow1 reading ready].
  destruct p, i0, l0, i1, l1, (c0 + 1 =? PCNT_H_LIM_VAL), (c1 + 1 =? PCNT_H_LIM_VAL);
    reflexivity.
Qed.

Lemma count_pulses_frame (ps : list pulse) :
  forall (c : counters_t) (r : Reading.t) (b : bool),
    count_pulses ps (mkCounters (unit0 c) (unit1 c) (noverflow0 c) (noverflow1 c) r b)
    = let c' := count_pulses ps c in
      mkCounters (unit0 c') (unit1 c') (noverflow0 c') (noverflow1 c') r b.
Proof.
  induction ps as [|p rest IH]; intros c r b.
  - reflexivity.
  - change (count_pulses (p :: rest) ?x) with (count_pulses rest (count_pulse p x)).
    rewrite count_pulse_frame. cbv zeta.
    rewrite (IH (count_pulse p c)). reflexivity.
Qed.

Lemma count_pulses_keeps (ps : list pulse) (c : counters_t) :
  reading (count_pulses ps c) = reading c /\ ready (count_pulses ps c) = ready c.
Proof.
  pose proof (count_pulses_frame ps c (reading c) (ready c)) as H.
  cbv zeta in H.
  replace (mkCounters (unit0 c) (unit1 c) (noverflow0 c) (noverflow1 c)
             (reading c) (ready c)) with c in H by (destruct c; reflexivity).
  rewrite H. split; reflexivity.
Qed.

(** X3: a reading is published once.  The iteration of [loop] that
    finds [ready] set clears it, so the next iteration publishes nothing
    until [isr] runs again; [loop] changes nothing but [ready], so it
    commutes with the counting of pulses and the snapshot taken at the
    end of the window is the same whether [loop] ran in between or
    not. *)
Theorem reading_is_published_once (c : counters_t) (ps : list pulse) :
  snd (loop_counter (fst (loop_counter c))) = None
  /\ fst (loop_counter (fst (loop_counter c))) = fst (loop_counter c)
  /\ loop_counter (count_pulses ps c)
     = (count_pulses ps (fst (loop_counter c)), snd (loop_counter c))
  /\ isr (count_pulses ps (fst (loop_counter c))) = isr (count_pulses ps c)
  /\ (ready c = false -> loop_counter c = (c, None))
  /\ (ready c = true ->
      snd (loop_counter c)
      = option_map (fun f => mkReport (create_display_string f) f (precision_of f))
                   (published (reading c))).
Proof.
  assert (Hfst : fst (loop_counter c)
                 = mkCounters (unit0 c) (unit1 c) (noverflow0 c) (noverflow1 c)
                     (reading c) false).
  { unfold loop_counter. destruct (ready c) eqn:Hr.
    - destruct (F32.to_bool (frequency_of (reading c))); reflexivity.
    - destruct c; simpl in *; subst; reflexivity. }
  split; [|split; [|split; [|split; [|split]]]].
  - rewrite Hfst. reflexivity.
  - rewrite Hfst. reflexivity.
  - destruct (count_pulses_keeps ps c) as [Hrd Hrdy].
    rewrite Hfst, count_pulses_frame. cbv zeta.
    unfold loop_counter. rewrite Hrdy, Hrd.
    destruct (ready c) eqn:Hr.
    + destruct (F32.to_bool (frequency_of (reading c))); reflexivity.
    + f_equal. rewrite <- Hrd, <- Hrdy at 1.
      destruct (count_pulses ps c); reflexivity.
  - rewrite Hfst, count_pulses_frame. reflexivity.
  - intros Hr. unfold loop_counter. rewrite Hr. reflexivity.
  - intros Hr. rewrite (loop_counter_ready c Hr). reflexivity.
Qed.

(** X4: [pcnt_intr_handler] is idempotent (it is registered once for
    each unit by [init_counter]): it clears the interrupt bits it
    serves, so a second call finds nothing to do and a tally is
    incremented once for each limit event; without a pending interrupt
    it changes nothing, and it never touches the counts, the reading or
    [ready]. *)
Theorem overflow_handler_is_idempotent (c : counters_t) :
  pcnt_intr_handler (pcnt_intr_handler c) = pcnt_intr_handler c
  /\ int_st (unit0 (pcnt_intr_handler c)) = false
  /\ int_st (unit1 (pcnt_intr_handler c)) = false
  /\ (int_st (unit0 c) = false -> int_st (unit1 c) = false ->
      pcnt_intr_handler c = c)
  /\ cnt (unit0 (pcnt_intr_handler c)) = cnt (unit0 c)
  /\ cnt (unit1 (pcnt_intr_handler c)) = cnt (unit1 c)
  /\ reading (pcnt_intr_handler c) = reading c
  /\ ready (pcnt_intr_handler c) = ready c.
Proof.
  destruct c as [[c0 i0 l0] [c1 i1 l1] n0 n1 rd rdy].
  unfold pcnt_intr_handler, handle_unit0, handle_unit1.
  cbn [unit0 unit1 cnt int_st h_lim_lat noverflow0 noverflow1 reading ready].
  destruct i0, i1;
    cbn [unit0 unit1 cnt int_st h_lim_lat noverflow0 noverflow1 reading ready];
    repeat split; try reflexivity; try discriminate.
Qed.

(** ** Exact cases of the estimator *)

Lemma mantissa_24 (m : positive) :
  Zpos (digits2_pos m) = 24 -> 2 ^ 23 <= Zpos m < 2 ^ 24.
Proof.
  intros H. pose proof (digits2_bounds m) as B. rewrite H in B. exact B.
Qed.

(** A number that has 24 significant bits rounds to itself. *)
Lemma RN_exact (m : positive) (e : Z) :
  Zpos (digits2_pos m) = 24 -> RN (Fval m e) (Fval m e).
Proof.
  intros H. exists (Zpos m), e, loc_Exact.
  split; [reflexivity|]. split; [now apply mantissa_24 | reflexivity].
Qed.

Lemma Fval_shift (m : positive) (e k : Z) :
  0 <= k -> (Fval m (e + k) == inject_Z (Zpos m * 2 ^ k) * pow2 e)%Q.
Proof.
  intros Hk. unfold Fval.
  rewrite pow2_add, (pow2_nonneg_exp k Hk), inject_Z_mult. ring.
Qed.

Lemma Fval_le_exp (m1 m2 : positive) (e1 e2 : Z) :
  Zpos (digits2_pos m1) = 24 -> Zpos (digits2_pos m2) = 24 ->
  e1 < e2 -> (Fval m1 e1 < Fval m2 e2)%Q.
Proof.
  intros H1 H2 He.
  apply mantissa_24 in H1, H2.
  replace e2 with (e1 + (e2 - e1)) by lia.
  rewrite (Fval_shift m2 e1 (e2 - e1)) by lia.
  unfold Fval. apply Qmult_lt_compat_r; [apply pow2_pos|].
  rewrite <- Zlt_Qlt.
  assert (2 ^ 1 <= 2 ^ (e2 - e1)) by (apply Z.pow_le_mono_r; lia).
  change (2 ^ 1) with 2 in *. nia.
Qed.

Lemma Fval_lt_mantissa (m1 m2 : positive) (e : Z) :
  (Fval m1 e < Fval m2 e)%Q <-> Zpos m1 < Zpos m2.
Proof.
  unfold Fval. pose proof (pow2_pos e) as Hp. split; intros H.
  - apply Qmult_lt_r in H; [|assumption]. now rewrite <- Zlt_Qlt in H.
  - apply Qmult_lt_compat_r; [assumption|]. now rewrite <- Zlt_Qlt.
Qed.

(** Two numbers of 24 significant bits with the same value are the same. *)
Lemma Fval_inj (m1 m2 : positive) (e1 e2 : Z) :
  Zpos (digits2_pos m1) = 24 -> Zpos (digits2_pos m2) = 24 ->
  (Fval m1 e1 == Fval m2 e2)%Q -> m1 = m2 /\ e1 = e2.
Proof.
  intros H1 H2 E.
  destruct (Z.lt_trichotomy e1 e2) as [Hlt|[Heq|Hgt]].
  - pose proof (Fval_le_exp m1 m2 e1 e2 H1 H2 Hlt). lra.
  - subst e2. split; [|reflexivity].
    destruct (Z.lt_trichotomy (Zpos m1) (Zpos m2)) as [Hl|[He|Hg]].
    + apply (Fval_lt_mantissa m1 m2 e1) in Hl. lra.
    + congruence.
    + apply (Fval_lt_mantissa m2 m1 e1) in Hg. lra.
  - pose proof (Fval_le_exp m2 m1 e2 e1 H2 H1 ltac:(lia)). lra.
Qed.

(** A number divided by itself is one. *)
Lemma div_same (s : bool) (m : positive) (e : Z) :
  Zpos (digits2_pos m) = 24 ->
  F32.div (S754_finite s m e) (S754_finite s m e) = S754_finite false 8388608 (-23).
Proof.
  intros Hd. unfold F32.div, F32.prec, F32.emax.
  destruct (div_spec s s m m e e Hd Hd ltac:(lia) ltac:(lia))
    as (m' & e' & E & Hd' & _ & HR).
  rewrite E, xorb_nilpotent.
  assert (H1 : RN (Fval m e / Fval m e) (Fval 8388608 (-23))).
  { apply (RN_ext (Fval 8388608 (-23)) _ (Fval 8388608 (-23)) _).
    - pose proof (Fval_pos m e) as Hp.
      assert (Hone : (Fval 8388608 (-23) == 1)%Q) by (vm_compute; reflexivity).
      rewrite Hone. field. lra.
    - reflexivity.
    - apply RN_exact. reflexivity. }
  pose proof (RN_unique _ _ _ HR H1) as Hv.
  destruct (Fval_inj m' 8388608 e' (-23) Hd' eq_refl Hv) as [-> ->].
  reflexivity.
Qed.

(** X5: when both counters hold the same total that is not zero (the
    input is the reference itself), the quotient of the two conversions
    is exactly one and the frequency is exactly [reference], the stored
    10001305 Hz, with no rounding error. *)
Theorem equal_counts_read_the_reference (r : Reading.t) :
  n_sig r = n_ref r -> n_ref r <> 0 ->
  frequency_of r = reference
  /\ published r = Some reference
  /\ F32.to_Q reference = Some (inject_Z 10001305).
Proof.
  intros E Hn.
  assert (Hf : frequency_of r = reference).
  { unfold frequency_of. rewrite E.
    destruct (of_int_spec (n_ref r) Hn (to_int32_range _))
      as (m & e & Ei & Hd & _).
    rewrite Ei, (div_same _ m e Hd).
    vm_compute. reflexivity. }
  split; [exact Hf|]. split; [|vm_compute; reflexivity].
  rewrite published_frequency, Hf. reflexivity.
Qed.

Lemma equal_counts_read_the_reference_witness :
  published (Reading.mk 1 500 1 500) = Some reference.
Proof.
  apply (equal_counts_read_the_reference (Reading.mk 1 500 1 500));
    vm_compute; [reflexivity | discriminate].
Defined.

(** With the signal total fixed, the rounded frequency does not grow
    when the reference total does. *)
Lemma rounded_frequency_antitone (a b1 b2 : Z) (v1 v2 : Q) :
  b1 <= b2 ->
  rounded_frequency a b1 v1 -> rounded_frequency a b2 v2 -> (v2 <= v1)%Q.
Proof.
  intros Hb (X1 & Y1 & T1 & HX1 & HY1 & HT1 & Hv1)
            (X2 & Y2 & T2 & HX2 & HY2 & HT2 & Hv2).
  pose proof (RN_unique _ _ _ HX1 HX2) as HX.
  assert (HY : (Y1 <= Y2)%Q)
    by (apply (RN_mono _ _ _ _ HY1 HY2); rewrite <- Zle_Qle; exact Hb).
  destruct (RN_error _ _ HX1) as (_ & HX1pos & _).
  destruct (RN_error _ _ HY1) as (_ & HY1pos & _).
  destruct (RN_error _ _ HY2) as (_ & HY2pos & _).
  assert (HT : (T2 <= T1)%Q).
  { apply (RN_mono _ _ _ _ HT2 HT1). rewrite <- HX.
    apply Qle_shift_div_l; [exact HY1pos|].
    assert (E : (X1 / Y2 * Y1 == X1 * (Y1 / Y2))%Q) by (field; lra).
    rewrite E.
    assert (H1 : (Y1 / Y2 <= 1)%Q) by (apply Qle_shift_div_r; lra).
    assert (H0 : (0 < Y1 / Y2)%Q) by (apply Qlt_shift_div_l; lra).
    nra. }
  apply (RN_mono _ _ _ _ Hv2 Hv1). nra.
Qed.

(** X15: below [2^31], with the signal total fixed, the frequency does
    not grow when the reference total grows: a longer window for the
    same number of signal pulses never reads higher. *)
Theorem more_reference_pulses_read_lower (r1 r2 : Reading.t) :
  total1 r1 = total1 r2 -> 0 < total1 r1 < 2 ^ 31 ->
  0 < total0 r1 -> total0 r1 <= total0 r2 -> total0 r2 < 2 ^ 31 ->
  exists v1 v2,
    F32.to_Q (frequency_of r1) = Some v1
    /\ F32.to_Q (frequency_of r2) = Some v2
    /\ (0 < v2)%Q /\ (v2 <= v1)%Q.
Proof.
  intros H1 Hs Hr1 Hle Hr2.
  destruct (frequency_in_range r1 ltac:(lia) ltac:(lia))
    as (v1 & _ & E1 & Hv1 & _).
  destruct (frequency_in_range r2 ltac:(lia) ltac:(lia))
    as (v2 & _ & E2 & Hv2 & _).
  exists v1, v2. split; [exact E1|]. split; [exact E2|]. split.
  - destruct Hv2 as (X & Y & T & _ & _ & _ & HM).
    now destruct (RN_error _ _ HM) as (_ & Hpos & _).
  - rewrite <- H1 in Hv2.
    exact (rounded_frequency_antitone _ _ _ _ _ Hle Hv1 Hv2).
Qed.

Lemma more_reference_pulses_read_lower_witness :
  exists v1 v2,
    F32.to_Q (frequency_of (Reading.mk 0 500 7 0)) = Some v1
    /\ F32.to_Q (frequency_of (Reading.mk 1 500 7 0)) = Some v2
    /\ (0 < v2)%Q /\ (v2 <= v1)%Q.
Proof.
  apply (more_reference_pulses_read_lower (Reading.mk 0 500 7 0)
           (Reading.mk 1 500 7 0));
    vm_compute; try reflexivity; try (split; reflexivity); discriminate.
Defined.

(** ** The display line *)
















(** ** The armed waveform *)
















(** ** The button cycle *)








(** ** The arrays of RMT items *)

Lemma store_item_spec (i : nat) (x : RmtItem.t) (buf buf' : list RmtItem.t) :
  store_item i x buf = Some buf' ->
  (i < length buf)%nat /\ length buf' = length buf
  /\ forall j, nth_error buf' j = if (j =? i)%nat then Some x else nth_error buf j.
Proof.
  unfold store_item. destruct (Nat.ltb_spec i (length buf)) as [Hlt|]; [|discriminate].
  intros E.
  assert (E' : buf' = firstn i buf ++ x :: skipn (S i) buf) by congruence.
  clear E. subst buf'. split; [assumption|].
  assert (Hf : length (firstn i buf) = i) by (apply firstn_length_le; lia).
  assert (Hs : length (skipn (S i) buf) = (length buf - S i)%nat)
    by apply length_skipn.
  set (hd := firstn i buf) in *. set (tl := skipn (S i) buf) in *.
  split.
  - rewrite length_app. change (length (x :: tl)) with (S (length tl)). lia.
  - intros j. destruct (Nat.eqb_spec j i) as [->|Hne].
    + rewrite nth_error_app2 by lia. rewrite Hf, Nat.sub_diag. reflexivity.
    + destruct (Nat.lt_ge_cases j i) as [Hj|Hj].
      * rewrite nth_error_app1 by lia. unfold hd.
        rewrite nth_error_firstn.
        destruct (Nat.ltb_spec j i); [reflexivity|lia].
      * rewrite nth_error_app2 by lia. rewrite Hf.
        destruct (j - i)%nat as [|k] eqn:Ek; [lia|].
        change (nth_error (x :: tl) (S k)) with (nth_error tl k).
        unfold tl. rewrite nth_error_skipn. f_equal. lia.
Qed.

Lemma fill_items_spec (n : nat) (x : RmtItem.t) :
  forall (i : nat) (buf : list RmtItem.t),
    (fill_items n i x buf = None <-> (0 < n /\ length buf < i + n)%nat)
    /\ (forall buf',
          fill_items n i x buf = Some buf' ->
          length buf' = length buf
          /\ forall j, nth_error buf' j
                       = if ((i <=? j) && (j <? i + n))%nat then Some x
                         else nth_error buf j).
Proof.
  induction n as [|n IH]; intros i buf; cbn [fill_items].
  - split; [split; [discriminate | lia]|].
    intros buf' E. injection E as <-. split; [reflexivity|].
    intros j. destruct (Nat.leb_spec i j); destruct (Nat.ltb_spec j (i + 0));
      cbn [andb]; try reflexivity; lia.
  - destruct (store_item i x buf) as [b1|] eqn:Es.
    + destruct (store_item_spec i x buf b1 Es) as (Hi & Hlen & Hnth).
      destruct (IH (S i) b1) as [Hnone Hsome]. split.
      * rewrite Hnone, Hlen. lia.
      * intros buf' E. destruct (Hsome buf' E) as [Hl Hn].
        split; [lia|]. intros j. rewrite Hn, Hnth.
        destruct (Nat.leb_spec (S i) j); destruct (Nat.ltb_spec j (S i + n));
          destruct (Nat.leb_spec i j); destruct (Nat.ltb_spec j (i + S n));
          destruct (Nat.eqb_spec j i); cbn [andb]; try reflexivity; lia.
    + split; [|discriminate].
      split; [intros _|reflexivity].
      unfold store_item in Es.
      destruct (Nat.ltb_spec i (length buf)); [discriminate|lia].
Qed.

(** X10: the loop that fills an array of RMT items stays inside the
    array exactly when the number of items it writes is at most the
    length of the array; it then sets that many items and leaves the
    others as they were.  [loop] writes two items into the two of
    [freq_gen_bit_data], [start_ref_clock] as many as [bit_data] has;
    [rotary_onButtonClick] stays inside where it writes two items, and
    leaves the array at index 2 where it writes sixty. *)
Theorem fill_stays_inside_iff_it_fits
    (n : nat) (x : RmtItem.t) (buf : list RmtItem.t) (on off : Z) :
  (fill_items n 0 x buf = None <-> (length buf < n)%nat)
  /\ (forall buf',
        fill_items n 0 x buf = Some buf' ->
        length buf' = length buf
        /\ forall j, nth_error buf' j
                     = if (j <? n)%nat then Some x else nth_error buf j)
  /\ loop_fill on off = Some [pulse_item on off; pulse_item on off]
  /\ button_fill 2 on off = Some [pulse_item on off; pulse_item on off]
  /\ button_fill 60 on off = None
  /\ start_ref_clock_fill 60 on off = Some (repeat (pulse_item on off) 60)
  /\ start_ref_clock_fill 2 on off = Some (repeat (pulse_item on off) 2).
Proof.
  destruct (fill_items_spec n x 0%nat buf) as [Hnone Hsome].
  split; [rewrite Hnone; lia|]. split.
  - intros buf' E. destruct (Hsome buf' E) as [Hl Hn].
    split; [exact Hl|]. intros j. rewrite Hn. reflexivity.
  - repeat split; reflexivity.
Qed.

(** ** The table against the waveform *)

Lemma lower_frequency_spec (r1 r2 : row_t) :
  lower_frequency r1 r2 = true
  <-> nominal_freq r1 < nominal_freq r2
      /\ (calibrated_freq r1 < calibrated_freq r2)%Q.
Proof.
  unfold lower_frequency. rewrite andb_true_iff, Z.ltb_lt, negb_true_iff.
  split; intros [Hn Hc]; (split; [exact Hn|]).
  - destruct (Qlt_le_dec (calibrated_freq r1) (calibrated_freq r2)) as [|Hle];
      [assumption|].
    apply Qle_bool_iff in Hle. congruence.
  - destruct (Qle_bool (calibrated_freq r2) (calibrated_freq r1)) eqn:E;
      [|reflexivity].
    apply Qle_bool_iff in E. lra.
Qed.

Lemma lower_frequency_trans (r1 r2 r3 : row_t) :
  lower_frequency r1 r2 = true -> lower_frequency r2 r3 = true ->
  lower_frequency r1 r3 = true.
Proof.
  rewrite !lower_frequency_spec. intros [H1 H2] [H3 H4].
  split; [lia | lra].
Qed.

Lemma rising_head (r : row_t) (rest : list row_t) :
  rising (r :: rest) = true ->
  rising rest = true /\ forall r', In r' rest -> lower_frequency r r' = true.
Proof.
  revert r. induction rest as [|r2 rest IH]; intros r H.
  - split; [reflexivity | intros r' []].
  - cbn [rising] in H. apply andb_true_iff in H as [H12 Hrest].
    split; [exact Hrest|].
    destruct (IH r2 Hrest) as [_ Hall].
    intros r' [<-|Hin]; [exact H12|].
    exact (lower_frequency_trans r r2 r' H12 (Hall r' Hin)).
Qed.

Lemma rising_nth (rows : list row_t) :
  rising rows = true ->
  forall (i j : nat) (r1 r2 : row_t),
    nth_error rows i = Some r1 -> nth_error rows j = Some r2 -> (i < j)%nat ->
    lower_frequency r1 r2 = true.
Proof.
  induction rows as [|r rest IH]; intros H i j r1 r2 E1 E2 Hij.
  - destruct i; discriminate.
  - destruct (rising_head r rest H) as [Hrest Hall].
    destruct j as [|j]; [lia|]. cbn [nth_error] in E2.
    destruct i as [|i]; cbn [nth_error] in E1.
    + injection E1 as <-. apply Hall. now apply nth_error_In with j.
    + apply (IH Hrest i j); [assumption|assumption|lia].
Qed.

Lemma params_rising : rising params = true.
Proof. vm_compute. reflexivity. Qed.

(** X11: the table is in rising order: a row at a higher index has a
    higher nominal frequency and a higher calibrated frequency. *)
Theorem rows_rise_in_frequency (i j : Z) (r1 r2 : row_t) :
  params_at i = Some r1 -> params_at j = Some r2 -> i < j ->
  nominal_freq r1 < nominal_freq r2
  /\ (calibrated_freq r1 < calibrated_freq r2)%Q.
Proof.
  unfold params_at.
  destruct (Z.ltb_spec i 0) as [|Hi]; [discriminate|].
  destruct (Z.ltb_spec j 0) as [|Hj]; [discriminate|].
  intros E1 E2 Hij.
  pose proof (rising_nth params params_rising (Z.to_nat i) (Z.to_nat j) r1 r2
                E1 E2 ltac:(lia)) as H.
  now apply lower_frequency_spec.
Qed.

Lemma rows_rise_in_frequency_witness :
  exists r1 r2,
    params_at 185 = Some r1 /\ params_at 186 = Some r2
    /\ nominal_freq r1 = 1000 /\ nominal_freq r2 = 1100
    /\ (calibrated_freq r1 < calibrated_freq r2)%Q.
Proof.
  eexists. eexists. split; [reflexivity|]. split; [reflexivity|].
  split; [reflexivity|]. split; [reflexivity|].
  apply (rows_rise_in_frequency 185 186); [reflexivity | reflexivity | lia].
Defined.





(** ** The counter-only sketch *)

Lemma gt_multipliers_defined (i : Z) :
  0 <= i <= 9 ->
  exists m, CounterOnly.gt_multipliers_at i = Some m /\ 1 <= m <= 10000.
Proof.
  intros Hi.
  assert (H : i = 0 \/ i = 1 \/ i = 2 \/ i = 3 \/ i = 4 \/ i = 5 \/ i = 6
              \/ i = 7 \/ i = 8 \/ i = 9) by lia.
  repeat (destruct H as [->|H]; [eexists; split; [reflexivity|lia]|]).
  subst i. eexists; split; [reflexivity|lia].
Qed.

Lemma gt_multipliers_range (i m : Z) :
  CounterOnly.gt_multipliers_at i = Some m ->
  0 <= i <= 9 /\ In m CounterOnly.gt_multipliers /\ 1 <= m <= 10000.
Proof.
  unfold CounterOnly.gt_multipliers_at.
  destruct (Z.ltb_spec i 0) as [|Hi]; [discriminate|]. intros E.
  assert (Hlen : (Z.to_nat i < length CounterOnly.gt_multipliers)%nat)
    by (apply nth_error_Some; congruence).
  cbn [CounterOnly.gt_multipliers length] in Hlen.
  split; [lia|]. split; [now apply nth_error_In with (Z.to_nat i)|].
  destruct (gt_multipliers_defined i ltac:(lia)) as (m' & E' & Hm).
  unfold CounterOnly.gt_multipliers_at in E'.
  destruct (Z.ltb_spec i 0); [lia|]. congruence.
Qed.

Lemma select_ok (enc : RotaryEncoder.t) :
  RotaryEncoder.minValue enc = 0 -> RotaryEncoder.maxValue enc = 9 ->
  RotaryEncoder.circleValues enc = false ->
  0 <= RotaryEncoder.position enc <= 9 ->
  exists g, CounterOnly.select enc = Some g
            /\ CounterOnly.rotaryEncoder g = enc
            /\ CounterOnly.encoderValue g = RotaryEncoder.position enc
            /\ CounterOnly.gate_ok g.
Proof.
  intros Hmin Hmax Hc Hp. unfold CounterOnly.select, RotaryEncoder.readEncoder.
  destruct (gt_multipliers_defined _ Hp) as (m & E & _). rewrite E.
  eexists. split; [reflexivity|]. split; [reflexivity|]. split; [reflexivity|].
  unfold CounterOnly.gate_ok. cbn. auto.
Qed.

Lemma gate_loop_ok (clicked : bool) (g : CounterOnly.gate_t) :
  CounterOnly.gate_ok g ->
  exists g', CounterOnly.loop clicked g = Some g' /\ CounterOnly.gate_ok g'
             /\ (clicked = true ->
                 CounterOnly.encoderValue g' = 6
                 /\ CounterOnly.gate_time_multiplier g' = 1000
                 /\ RotaryEncoder.readEncoder (CounterOnly.rotaryEncoder g') = 6).
Proof.
  intros (Hmin & Hmax & Hc & Hp & Hsel).
  unfold CounterOnly.loop, RotaryEncoder.encoderChanged.
  set (enc := RotaryEncoder.mk _ _ _ _ _).
  assert (Hg1 : exists g1,
             (if negb (RotaryEncoder.position (CounterOnly.rotaryEncoder g)
                       =? RotaryEncoder.lastRead (CounterOnly.rotaryEncoder g))
              then CounterOnly.select enc
              else Some (CounterOnly.mkGate enc (CounterOnly.encoderValue g)
                           (CounterOnly.gate_time_multiplier g))) = Some g1
             /\ CounterOnly.gate_ok g1).
  { destruct (negb _).
    - destruct (select_ok enc Hmin Hmax Hc Hp) as (g1 & E & _ & _ & Hok).
      now exists g1.
    - eexists. split; [reflexivity|]. unfold CounterOnly.gate_ok. cbn. auto. }
  destruct Hg1 as (g1 & E1 & Hmin1 & Hmax1 & Hc1 & Hp1 & Hsel1).
  rewrite E1. destruct clicked.
  - set (enc6 := RotaryEncoder.setEncoderValue 6 (CounterOnly.rotaryEncoder g1)).
    assert (H6 : RotaryEncoder.position enc6 = 6).
    { unfold enc6, RotaryEncoder.setEncoderValue, RotaryEncoder.limit.
      rewrite Hmin1, Hmax1, Hc1. reflexivity. }
    destruct (select_ok enc6 Hmin1 Hmax1 Hc1 ltac:(lia)) as (g' & E & He & Hv & Hok).
    exists g'. split; [exact E|]. split; [exact Hok|]. intros _.
    destruct Hok as (_ & _ & _ & _ & Hs).
    rewrite Hv, H6 in Hs. rewrite Hv, He. unfold RotaryEncoder.readEncoder.
    split; [exact H6|]. split; [|exact H6].
    change (CounterOnly.gt_multipliers_at 6) with (Some 1000) in Hs.
    congruence.
  - exists g1. split; [reflexivity|]. split; [|discriminate].
    unfold CounterOnly.gate_ok. auto.
Qed.

Lemma gate_step_ok (i : input) (g : CounterOnly.gate_t) :
  CounterOnly.gate_ok g ->
  exists g', CounterOnly.step i g = Some g' /\ CounterOnly.gate_ok g'.
Proof.
  intros Hok. destruct i as [delta|clicked]; cbn [CounterOnly.step].
  - eexists. split; [reflexivity|].
    destruct Hok as (Hmin & Hmax & Hc & Hp & Hsel).
    unfold CounterOnly.gate_ok. cbn.
    destruct (limit_clamps (CounterOnly.rotaryEncoder g)
                (RotaryEncoder.position (CounterOnly.rotaryEncoder g) + delta) Hc)
      as [H _]; [lia|].
    repeat split; try assumption; lia.
  - destruct (gate_loop_ok clicked g Hok) as (g' & E & Hok' & _). now exists g'.
Qed.

Lemma gate_run_ok (ins : list input) :
  forall g, CounterOnly.gate_ok g ->
            exists g', CounterOnly.run ins g = Some g' /\ CounterOnly.gate_ok g'.
Proof.
  induction ins as [|i rest IH]; intros g Hok; cbn [CounterOnly.run].
  - now exists g.
  - destruct (gate_step_ok i g Hok) as (g1 & E & Hok1). rewrite E. now apply IH.
Qed.

(** X13: in the counter-only sketch, from the first boot and through
    any sequence of knob movements, loop iterations and presses, the
    index stays in 0..9, [gate_time_multiplier] is
    [gt_multipliers[encoderValue]], one of 1, 5, ..., 10000, and the timer
    is started for between 1 ms and 10.0005 s, a product that fits
    [int]; a press always brings the gate time back to 1000 ms
    (index 6). *)
Theorem gate_time_follows_the_knob (ins : list input) (rnd : Z) :
  exists g,
    CounterOnly.run ins (CounterOnly.setup 6) = Some g
    /\ 0 <= CounterOnly.encoderValue g <= 9
    /\ CounterOnly.gt_multipliers_at (CounterOnly.encoderValue g)
       = Some (CounterOnly.gate_time_multiplier g)
    /\ In (CounterOnly.gate_time_multiplier g) CounterOnly.gt_multipliers
    /\ (0 <= rnd < 500 ->
        CounterOnly.timer_period g rnd
        = 1000 * CounterOnly.gate_time_multiplier g + rnd
        /\ 1000 <= CounterOnly.timer_period g rnd < 10000500)
    /\ (exists g',
          CounterOnly.loop true g = Some g'
          /\ CounterOnly.encoderValue g' = 6
          /\ CounterOnly.gate_time_multiplier g' = 1000
          /\ RotaryEncoder.readEncoder (CounterOnly.rotaryEncoder g') = 6).
Proof.
  assert (H0 : CounterOnly.gate_ok (CounterOnly.setup 6))
    by (unfold CounterOnly.gate_ok; cbn; repeat split; lia).
  destruct (gate_run_ok ins _ H0) as (g & E & Hok).
  exists g. split; [exact E|].
  pose proof Hok as (_ & _ & _ & _ & Hsel).
  destruct (gt_multipliers_range _ _ Hsel) as (Hi & Hin & Hm).
  split; [exact Hi|]. split; [exact Hsel|]. split; [exact Hin|]. split.
  - intros Hr. unfold CounterOnly.timer_period, CounterOnly.MIN_GATE_TIME.
    rewrite to_int32_small by lia. lia.
  - destruct (gate_loop_ok true g Hok) as (g' & E' & _ & H).
    exists g'. split; [exact E'|]. now apply H.
Qed.



